(** * DeepDive example UDFs: word extractor, spouse feature extractor, recall

    A shallow embedding of three Python 2 scripts of the repository,

    - [examples/titles/udf/word_extractor.py],
    - [examples/tutorial_example/step2-generic-features/.../udf/ext_has_spouse_features.py],
    - [examples/tutorial_example/step3-more-data/labeling/compute-recall.py],

    and the properties their specification states about them.

    Conventions.  A Python [str] is a [string] (a sequence of bytes).  A
    script is a function from its input to what it printed together with
    the way it ended: normally, or with the exception that escaped (none of
    the three scripts has a [try]).  A Python [set] is a [gset]; its
    iteration order is the one of [elements], about which nothing but
    [NoDup_elements] and [elem_of_elements] is used, since Python fixes no
    order either.  A [dict] is a [gmap]. *)

From Stdlib Require Import ZArith QArith String Ascii List Lia.
From stdpp Require Import gmap strings list fin_maps.

Open Scope string_scope.
Open Scope list_scope.
Open Scope Z_scope.

(** ** Python: exceptions, printing, and the builtins the scripts call *)

Module Py.

(** The exceptions that can escape the scripts.  [Raised] stands for an
    exception of a library that is not a builtin one. *)
Inductive exn : Type :=
  | IndexError
  | ValueError
  | KeyError
  | TypeError
  | AttributeError
  | ZeroDivisionError
  | OverflowError
  | Raised (name : string).

Inductive result (A : Type) : Type :=
  | Ok (a : A)
  | Raise (e : exn).
Arguments Ok {A} a.
Arguments Raise {A} e.

#[global] Instance exn_eq_dec : EqDecision exn.
Proof. solve_decision. Defined.

#[global] Instance result_ret : MRet result := @Ok.
#[global] Instance result_bind : MBind result := fun A B f m =>
  match m with
  | Ok a => f a
  | Raise e => Raise e
  end.

#[global] Instance result_fmap : FMap result := fun A B f m =>
  match m with
  | Ok a => Ok (f a)
  | Raise e => Raise e
  end.

Definition from_option {A} (e : exn) (o : option A) : result A :=
  match o with
  | Some a => Ok a
  | None => Raise e
  end.

(** A run of statements that print lines of type [O]: the lines printed so
    far, and either the value computed or the exception that stopped it. *)
Definition io (O A : Type) : Type := (list O * result A)%type.

Definition print {O} (x : O) : io O unit := ([x], Ok tt).
Definition lift {O A} (r : result A) : io O A := ([], r).

#[global] Instance io_ret {O} : MRet (io O) := fun A a => ([], Ok a).
#[global] Instance io_bind {O} : MBind (io O) := fun A B f m =>
  match m.2 with
  | Ok a => (m.1 ++ (f a).1, (f a).2)
  | Raise e => (m.1, Raise e)
  end.

(** [for x in l: body x] *)
Fixpoint for_each {O X} (l : list X) (body : X -> io O unit) : io O unit :=
  match l with
  | [] => mret tt
  | x :: l' => body x ≫= fun _ => for_each l' body
  end.

(** [s[i]] on a list *)
Definition index {A} (l : list A) (i : nat) : result A :=
  from_option IndexError (l !! i).

(** *** [str.strip()] *)

(** [isspace] on a byte string: space, [\t], [\n], [\v], [\f], [\r]. *)
Definition is_space (c : ascii) : bool :=
  let n := nat_of_ascii c in
  (Nat.eqb n 32 || (Nat.leb 9 n && Nat.leb n 13))%bool.

Fixpoint lstrip (s : string) : string :=
  match s with
  | String c r => if is_space c then lstrip r else s
  | EmptyString => EmptyString
  end.

Fixpoint rstrip (s : string) : string :=
  match s with
  | EmptyString => EmptyString
  | String c r =>
      match rstrip r with
      | EmptyString => if is_space c then EmptyString else String c EmptyString
      | r' => String c r'
      end
  end.

Definition strip (s : string) : string := rstrip (lstrip s).

(** *** [str.split(sep)] for a non-empty separator

    The string is read from the left; wherever [sep] starts the current
    piece ends and reading resumes after the separator ([skip] counts the
    characters of a separator still to be passed over).  The result is
    never empty: [''.split(sep) == ['']]. *)
Fixpoint split_from (sep : string) (skip : nat) (s : string) : list string :=
  match s with
  | EmptyString => [EmptyString]
  | String c r =>
      match skip with
      | S k => split_from sep k r
      | O =>
          if String.prefix sep s
          then EmptyString :: split_from sep (String.length sep - 1) r
          else match split_from sep 0 r with
               | piece :: pieces => String c piece :: pieces
               | [] => [String c EmptyString]
               end
      end
  end.

Definition split (sep s : string) : list string := split_from sep 0 s.

(** *** [int(x)] on a string

    The grammar the language reference gives for base 10: an optional sign
    directly followed by one or more decimal digits, the whole optionally
    surrounded by whitespace. *)
Definition is_digit (c : ascii) : bool :=
  let n := nat_of_ascii c in (Nat.leb 48 n && Nat.leb n 57)%bool.

Fixpoint digits (acc : Z) (s : string) : option Z :=
  match s with
  | EmptyString => Some acc
  | String c r =>
      if is_digit c
      then digits (10 * acc + Z.of_nat (nat_of_ascii c - 48)) r
      else None
  end.

Definition unsigned (s : string) : option Z :=
  match s with
  | EmptyString => None
  | _ => digits 0 s
  end.

Definition int_of_str (s : string) : result Z :=
  from_option ValueError
    match strip s with
    | String "+" r => unsigned r
    | String "-" r => Z.opp <$> unsigned r
    | r => unsigned r
    end.

(** The tab character, ['\t'] *)
Definition TAB : string := String (ascii_of_nat 9) "".

(** Does the character occur in the string? *)
Fixpoint occurs (c : ascii) (s : string) : bool :=
  match s with
  | EmptyString => false
  | String d r => if decide (d = c) then true else occurs c r
  end.

(** [s.count(c)] for a character: how often it occurs *)
Fixpoint count_char (c : ascii) (s : string) : nat :=
  match s with
  | EmptyString => 0%nat
  | String d r => ((if decide (d = c) then 1 else 0) + count_char c r)%nat
  end.

(** [s[k:]] *)
Fixpoint drop_str (k : nat) (s : string) : string :=
  match k, s with
  | O, _ => s
  | S k', String _ r => drop_str k' r
  | S _, EmptyString => EmptyString
  end.

(** A string of whitespace only, the empty string included *)
Fixpoint blank (s : string) : bool :=
  match s with
  | EmptyString => true
  | String c r => is_space c && blank r
  end.

End Py.
Export Py.

(** ** JSON values, as [json.loads] returns them

    A number with a fraction or an exponent is a [float].  A finite one is
    kept as the rational it denotes; [Infinity], [-Infinity] and a literal
    too large for a float such as [1e400] are [JInfinity], and [NaN] is
    [JNaN].  A string is a [unicode] object, kept as its bytes. *)

#[warnings="-register-all"]
Inductive json : Type :=
  | JNull
  | JBool (b : bool)
  | JInt (n : Z)
  | JFloat (q : Q)
  | JInfinity (negative : bool)
  | JNaN
  | JStr (s : string)
  | JArr (items : list json)
  | JObj (fields : gmap string json).

(** ** [word_extractor.py] *)

Module WordExtractor.

Section Script.

(** [int(x)] on a [unicode] string.  It reads more than the grammar of a
    byte string (other digits and whitespace of Unicode), and what it
    raises may be a subclass of [ValueError]: it is left open. *)
Variable int_of_unicode : string -> result Z.

(** [int(x)] on a JSON value: a finite number is truncated towards zero, an
    infinity is an [OverflowError], a NaN a [ValueError]; a string is
    parsed; [None] and the containers are a [TypeError]. *)
Definition int (x : json) : result Z :=
  match x with
  | JInt n => Ok n
  | JBool b => Ok (if b then 1 else 0)
  | JFloat q => Ok (Z.quot (Qnum q) (Z.pos (Qden q)))
  | JInfinity _ => Raise OverflowError
  | JNaN => Raise ValueError
  | JStr s => int_of_unicode s
  | JNull | JArr _ | JObj _ => Raise TypeError
  end.

(** [title.split(" ")]: only a [str] has the method. *)
Definition title_split (title : json) : result (list string) :=
  match title with
  | JStr s => Ok (split " " s)
  | _ => Raise AttributeError
  end.

(** The body of the loop, lines 8 to 14, on the array a line holds.  What
    [print json.dumps([int(title_id), word])] prints is kept as the JSON
    value it serialises. *)
Definition extract (line : list json) : io json unit :=
  match line with
  | [title_id; title; has_entities] =>
      match title with
      | JNull => mret tt
      | _ =>
          pieces ← lift (title_split title);
          for_each (elements (list_to_set pieces : gset string)) (fun word =>
            n ← lift (int title_id);
            print (JArr [JInt n; JStr word]))
      end
  | _ => lift (Raise ValueError)
  end.

(** [for line in fileinput.input(): ...] *)
Definition main (input : list (list json)) : io json unit :=
  for_each input extract.

End Script.

(** The words of a title as the specification has them: the maximal runs of
    characters that are not whitespace. *)
Fixpoint whitespace_words (s : string) : list string :=
  match s with
  | EmptyString => []
  | String c r =>
      if is_space c then whitespace_words r
      else match r with
           | EmptyString => [String c EmptyString]
           | String d _ =>
               if is_space d then String c EmptyString :: whitespace_words r
               else match whitespace_words r with
                    | w :: ws => String c w :: ws
                    | [] => [String c EmptyString]
                    end
           end
  end.

(** "Exactly one output line [[n, word]] per unique word of the title",
    for a given notion of word. *)
Definition one_line_per_word (words : string -> list string)
    (n : Z) (title : string) (out : list json) : Prop :=
  NoDup out ∧ ∀ l : json, l ∈ out ↔ ∃ w, w ∈ words title ∧ l = JArr [JInt n; JStr w].

(** Two titles: a tab between two words, two spaces between two words. *)
Definition tab_title : string := "a" +:+ TAB +:+ "b".
Definition spaces_title : string := "a  b".

End WordExtractor.

(** ** [compute-recall.py] *)

Module ComputeRecall.

(** What the four [print] statements write: the number after the text. *)
Inductive line : Type :=
  | Labels (n : nat)          (* '# labels: %d' *)
  | TruePositive (n : Z)      (* '# true positive: %d' *)
  | FalseNegative (n : Z)     (* '# false negative: %d' *)
  | Recall (q : Q).           (* 'RECALL: %.3f' *)

(** [x[key]] with a string key: only a [dict] can be asked. *)
Definition subscript (x : json) (key : string) : result json :=
  match x with
  | JObj fields => from_option KeyError (fields !! key)
  | _ => Raise TypeError
  end.

(** [x == True]: [True] itself and the numbers equal to one. *)
Definition eq_True (x : json) : bool :=
  match x with
  | JBool b => b
  | JInt n => n =? 1
  | JFloat q => Qeq_bool q 1
  | _ => false
  end.

(** The literal [0.9].  An expectation is the rational a binary float
    denotes; no such float lies between nine tenths and the float the
    literal is read as, so comparing with [9 # 10] decides [>= 0.9]. *)
Definition threshold : Q := 9 # 10.

Section Script.

(** [float(x)] on a string, with the rational denoted as its value (the
    expectations are probabilities: infinities and NaN are left out). *)
Variable float : string -> result Q.

(** Lines 12 to 15: [rid_exp[relation_id] = expectation], row after row. *)
Fixpoint read_expectations (rid_exp : gmap string Q) (sentences : list (list string))
    : result (gmap string Q) :=
  match sentences with
  | [] => Ok rid_exp
  | s :: rest =>
      relation_id ← index s 0;
      field ← index s 4;
      expectation ← float field;
      read_expectations (<[relation_id := expectation]> rid_exp) rest
  end.

(** Lines 21 to 24, on the counters [(positive_correct, tot_correct)]. *)
Definition count_label (rid_exp : gmap string Q) (counters : Z * Z)
    (key : string) (entry : json) : result (Z * Z) :=
  let '(positive_correct, tot_correct) := counters in
  is_correct ← subscript entry "is_correct";
  if eq_True is_correct then
    let tot_correct := tot_correct + 1 in
    expectation ← from_option KeyError (rid_exp !! key);
    if Qle_bool threshold expectation
    then Ok (positive_correct + 1, tot_correct)
    else Ok (positive_correct, tot_correct)
  else Ok (positive_correct, tot_correct).

(** [for key in labels: ...] over the items in the order of iteration. *)
Fixpoint count_labels (rid_exp : gmap string Q) (counters : Z * Z)
    (items : list (string * json)) : result (Z * Z) :=
  match items with
  | [] => Ok counters
  | (key, entry) :: rest =>
      counters ← count_label rid_exp counters key entry;
      count_labels rid_exp counters rest
  end.

(** [positive_correct / float(tot_correct)] *)
Definition divide (positive_correct tot_correct : Z) : result Q :=
  if tot_correct =? 0 then Raise ZeroDivisionError
  else Ok (Qred (inject_Z positive_correct / inject_Z tot_correct)).

(** Lines 26 to 29. *)
Definition report (labels : gmap string json) (counters : Z * Z) : io line unit :=
  let '(positive_correct, tot_correct) := counters in
  print (Labels (size labels));;
  print (TruePositive positive_correct);;
  print (FalseNegative (tot_correct - positive_correct));;
  recall ← lift (divide positive_correct tot_correct);
  print (Recall recall).

(** The script, on the [by_key] object of [tags.json] and the rows of
    [input.csv], the header row included. *)
Definition main (labels : gmap string json) (rows : list (list string)) : io line unit :=
  let sentences := drop 1 rows in
  rid_exp ← lift (read_expectations ∅ sentences);
  counters ← lift (count_labels rid_exp (0, 0) (map_to_list labels));
  report labels counters.

End Script.

(** The counts of the specification, over the labels joined with the
    expectations. *)
Definition correct (entry : json) : bool :=
  match subscript entry "is_correct" with
  | Ok is_correct => eq_True is_correct
  | Raise _ => false
  end.

Definition expected (rid_exp : gmap string Q) (key : string) : bool :=
  match rid_exp !! key with
  | Some expectation => Qle_bool threshold expectation
  | None => false
  end.

(** [expectation < 0.9], for a key that has an expectation *)
Definition below (rid_exp : gmap string Q) (key : string) : bool :=
  match rid_exp !! key with
  | Some expectation => negb (Qle_bool threshold expectation)
  | None => false
  end.

Definition true_positives (rid_exp : gmap string Q) (items : list (string * json)) : nat :=
  length (List.filter (fun item => correct item.2 && expected rid_exp item.1) items).

Definition false_negatives (rid_exp : gmap string Q) (items : list (string * json)) : nat :=
  length (List.filter (fun item => correct item.2 && below rid_exp item.1) items).

Definition correct_labels (items : list (string * json)) : nat :=
  length (List.filter (fun item => correct item.2) items).

(** An entry the loop can handle: it has the field and, when it is correct,
    its key has an expectation. *)
Definition handled (rid_exp : gmap string Q) (key : string) (entry : json) : bool :=
  match subscript entry "is_correct" with
  | Ok is_correct =>
      if eq_True is_correct then bool_decide (is_Some (rid_exp !! key)) else true
  | Raise _ => false
  end.

Definition joined (rid_exp : gmap string Q) (labels : gmap string json) : Prop :=
  map_Forall (fun key entry => handled rid_exp key entry = true) labels.

(** An entry whose [is_correct] is not equal to [True] *)
Definition not_correct (entry : json) : Prop :=
  ∃ is_correct, subscript entry "is_correct" = Ok is_correct ∧ eq_True is_correct = false.

(** [float] on the two strings of the recall example: the binary floats
    nearest to 0.95 and to 0.80. *)
Definition float_0_95 : Q := 4278419646001971 # 4503599627370496.
Definition float_0_80 : Q := 3602879701896397 # 4503599627370496.

Definition example_float (s : string) : result Q :=
  if decide (s = "0.95") then Ok float_0_95
  else if decide (s = "0.80") then Ok float_0_80
  else Raise ValueError.

(** The example of the specification: two labels, both correct, with the
    expectations 0.95 and 0.80. *)
Definition example_labels : gmap string json :=
  {[ "r1" := JObj {[ "is_correct" := JBool true ]};
     "r2" := JObj {[ "is_correct" := JBool true ]} ]}.

Definition example_rows : list (list string) :=
  [ ["relation_id"; "sentence"; "p1"; "p2"; "expectation"];
    ["r1"; "John married Mary"; "John"; "Mary"; "0.95"];
    ["r2"; "John met Mary"; "John"; "Mary"; "0.80"] ].

Definition example_rid_exp : gmap string Q :=
  {[ "r1" := float_0_95; "r2" := float_0_80 ]}.

(** Two labels that are not correct; the second has no expectation. *)
Definition incorrect_labels : gmap string json :=
  {[ "r1" := JObj {[ "is_correct" := JBool false ]};
     "r3" := JObj {[ "is_correct" := JNull ]} ]}.

(** Two correct labels; the second has no expectation. *)
Definition unmatched_labels : gmap string json :=
  {[ "r1" := JObj {[ "is_correct" := JBool true ]};
     "r3" := JObj {[ "is_correct" := JBool true ]} ]}.

(** A correct label and one that is not; the second has no expectation. *)
Definition mixed_labels : gmap string json :=
  {[ "r1" := JObj {[ "is_correct" := JBool true ]};
     "r3" := JObj {[ "is_correct" := JNull ]} ]}.

(** A row that gives the second of them an expectation *)
Definition late_row : list string := ["r3"; "John left Mary"; "John"; "Mary"; "0.95"].

(** A row for a relation that has no label *)
Definition unlabelled_row : list string := ["r7"; "John saw Mary"; "John"; "Mary"; "0.80"].

End ComputeRecall.

(** ** [ddlib], the part of it [ext_has_spouse_features.py] builds sentences with *)

Module Ddlib.

(** Modelled from the spec: the library is imported by the script and not
    among the sources at hand.  A token is the record of section 3. *)
Record Token : Type := {
  text : string;
  lemma : string;
  partOfSpeech : string;
  dependencyLabel : string;
  namedEntityTag : string;
  positionIndex : nat
}.

(** Modelled from the spec: the ordered tokens, and the two numeric arrays
    that are kept only for alignment. *)
Record Sentence : Type := {
  tokens : list Token;
  begin_char_offsets : list Z;
  end_char_offsets : list Z
}.

Definition MalformedInputError : exn := Raised "MalformedInputError".

(** Modelled from the spec: "each token's fields matching the corresponding
    positional entries of the inputs"; the tokens at the positions [i],
    [i + 1], ... from five aligned sequences. *)
Fixpoint tokens_from (i : nat) (words lemmas poses dependencies ners : list string)
    : list Token :=
  match words, lemmas, poses, dependencies, ners with
  | w :: words, l :: lemmas, p :: poses, d :: dependencies, n :: ners =>
      {| text := w; lemma := l; partOfSpeech := p; dependencyLabel := d;
         namedEntityTag := n; positionIndex := i |}
      :: tokens_from (S i) words lemmas poses dependencies ners
  | _, _, _, _, _ => []
  end.

(** Modelled from the spec: the Sentence Model Builder of section 4.2, which
    "fails with a MalformedInputError if sequence lengths disagree or any
    required sequence is absent".  An absent sequence is [None]. *)
Definition get_sentence (begin_char_offsets end_char_offsets : option (list Z))
    (words lemmas poses dependencies ners : option (list string)) : result Sentence :=
  match begin_char_offsets, end_char_offsets, words, lemmas, poses, dependencies, ners with
  | Some bs, Some es, Some ws, Some ls, Some ps, Some ds, Some ns =>
      let n := length ws in
      if forallb (Nat.eqb n)
           [length bs; length es; length ls; length ps; length ds; length ns]
      then Ok {| tokens := tokens_from 0 ws ls ps ds ns;
                 begin_char_offsets := bs; end_char_offsets := es |}
      else Raise MalformedInputError
  | _, _, _, _, _, _, _ => Raise MalformedInputError
  end.

(** All seven sequences have the length of [words]. *)
Definition aligned (bs es : list Z) (ws ls ps ds ns : list string) : Prop :=
  length bs = length ws ∧ length es = length ws ∧ length ls = length ws ∧
  length ps = length ws ∧ length ds = length ws ∧ length ns = length ws.

End Ddlib.

(** ** The Span Resolver, which the script reaches as [ddlib.Span] *)

Module SpanResolver.

(** Modelled from the spec: [ddlib.Span], called on lines 32 and 33 of the
    script, is not among the sources at hand.  A span is the record of
    section 3, "{beginIndex, length}". *)
Record Span : Type := { beginIndex : Z; length : Z }.






End SpanResolver.

(** ** [ext_has_spouse_features.py] *)

Module HasSpouseFeatures.

Definition ARR_DELIM : string := "~^~".

(** The fields of a row, lines 18 to 24. *)
Record Fields : Type := {
  words : list string;
  lemmas : list string;
  poses : list string;
  dependencies : list string;
  ners : list string;
  relation_id : string;
  p1_start : Z;
  p1_length : Z;
  p2_start : Z;
  p2_length : Z
}.

(** Lines 15 to 24.  The subscripts are evaluated in the order of the
    lines, every [int(x)] before the list is unpacked into four names. *)
Definition parse_fields (row : string) : result Fields :=
  let parts := split TAB (strip row) in
  words ← split ARR_DELIM <$> index parts 0;
  lemmas ← split ARR_DELIM <$> index parts 1;
  poses ← split ARR_DELIM <$> index parts 2;
  dependencies ← split ARR_DELIM <$> index parts 3;
  ners ← split ARR_DELIM <$> index parts 4;
  relation_id ← index parts 5;
  offsets ← mapM int_of_str (drop 6 parts);
  match offsets with
  | [p1_start; p1_length; p2_start; p2_length] =>
      Ok {| words := words; lemmas := lemmas; poses := poses;
            dependencies := dependencies; ners := ners;
            relation_id := relation_id;
            p1_start := p1_start; p1_length := p1_length;
            p2_start := p2_start; p2_length := p2_length |}
  | _ => Raise ValueError
  end.

Section Script.

(** What the script calls in [ddlib], whose code is not at hand.  [Store]
    is the library's dictionary store, which [load_dictionary] fills from a
    file; each call may raise. *)
Context {Store Sentence SpanT : Type}.
Variable load_dictionary : string -> string -> Store -> result Store.
Variable get_sentence :
  list Z -> list Z -> list string -> list string -> list string ->
  list string -> list string -> result Sentence.
Variable Span : Z -> Z -> result SpanT.

(** Modelled from the spec: the dictionaries are "read-only thereafter" and
    generation depends on "(sentence, span1, span2, dictionaries)", so the
    generator reads the store and leaves it as it is. *)
Variable get_generic_features_relation :
  Store -> Sentence -> SpanT -> SpanT -> result (list string).

(** Lines 27 to 29. *)
Definition build_sentence (f : Fields) : result Sentence :=
  get_sentence (replicate (length (words f)) 0) (replicate (length (words f)) 0)
    (words f) (lemmas f) (poses f) (dependencies f) (ners f).

(** Lines 32 and 33. *)
Definition resolve_spans (f : Fields) : result (SpanT * SpanT) :=
  span1 ← Span (p1_start f) (p1_length f);
  span2 ← Span (p2_start f) (p2_length f);
  Ok (span1, span2).

(** Lines 36 to 40: the set the generated features are added to. *)
Definition generate (dicts : Store) (sentence : Sentence) (span1 span2 : SpanT)
    : result (gset string) :=
  list_to_set <$> get_generic_features_relation dicts sentence span1 span2.

(** Lines 41 and 42. *)
Definition emit (relation_id : string) (features : gset string) : io string unit :=
  for_each (elements features) (fun feature =>
    print (relation_id +:+ TAB +:+ feature)).

(** The body of the loop, lines 15 to 42. *)
Definition process_row (dicts : Store) (row : string) : io string unit :=
  f ← lift (parse_fields row);
  sentence ← lift (build_sentence f);
  spans ← lift (resolve_spans f);
  features ← lift (generate dicts sentence spans.1 spans.2);
  emit (relation_id f) features.

(** The feature set of a row, from the fields read: lines 27 to 40. *)
Definition features_of (dicts : Store) (f : Fields) : result (gset string) :=
  sentence ← build_sentence f;
  spans ← resolve_spans f;
  generate dicts sentence spans.1 spans.2.

(** [for row in sys.stdin: ...] *)
Definition process_rows (dicts : Store) (stdin : list string) : io string unit :=
  for_each stdin (process_row dicts).

(** The script: lines 10 and 11 load the two dictionaries into the store
    the library starts with, then the rows are read. *)
Definition main (BASE_DIR : string) (store0 : Store) (stdin : list string)
    : io string unit :=
  dicts ← lift (load_dictionary (BASE_DIR +:+ "/dicts/married.txt") "married" store0);
  dicts ← lift (load_dictionary (BASE_DIR +:+ "/dicts/non_married.txt") "non_married" dicts);
  process_rows dicts stdin.

End Script.

(** A row is malformed when it has not ten tab-separated fields or one of
    the fields after the sixth is not an integer. *)
Definition malformed (row : string) : Prop :=
  let parts := split TAB (strip row) in
  length parts ≠ 10%nat ∨ ∃ x, x ∈ drop 6 parts ∧ int_of_str x = Raise ValueError.

End HasSpouseFeatures.

(** ** A stand-in for [ddlib], to run the script on examples *)

Module Fixture.

Import Ddlib HasSpouseFeatures.

(** The store: the words of each dictionary loaded.  No file is read; a
    dictionary is registered with the word its identifier spells. *)
Definition Store : Type := gmap string (gset string).

Definition load_dictionary (path dict_id : string) (store : Store) : result Store :=
  Ok (<[dict_id := {[dict_id]}]> store).

Definition get_sentence (bs es : list Z) (ws ls ps ds ns : list string) : result Sentence :=
  Ddlib.get_sentence (Some bs) (Some es) (Some ws) (Some ls) (Some ps) (Some ds) (Some ns).

(** A span is the pair it is made of, whatever the numbers. *)
Definition Span (begin_word_id length : Z) : result (Z * Z) := Ok (begin_word_id, length).

(** One feature per token, naming its lemma: a lemma that occurs twice is
    generated twice. *)
Definition get_generic_features_relation (dicts : Store) (sentence : Sentence)
    (span1 span2 : Z * Z) : result (list string) :=
  Ok ((fun t => "LEMMA_" +:+ lemma t) <$> tokens sentence).

Definition process_rows : list string -> io string unit :=
  HasSpouseFeatures.process_rows get_sentence Span get_generic_features_relation (∅ : Store).

Definition main : list string -> io string unit :=
  HasSpouseFeatures.main load_dictionary get_sentence Span get_generic_features_relation
    "/app/udf" ∅.

(** A line of the input: the fields joined by tabs, and the end of line. *)
Definition row_of (fields : list string) : string :=
  String.concat TAB fields +:+ String (ascii_of_nat 10) "".

Definition good_row : string :=
  row_of ["John~^~married~^~Mary~^~yesterday~^~married";
          "john~^~marry~^~mary~^~yesterday~^~marry";
          "NNP~^~VBD~^~NNP~^~NN~^~VBD";
          "nsubj~^~root~^~dobj~^~tmod~^~dep";
          "PERSON~^~O~^~PERSON~^~DATE~^~O";
          "r1"; "0"; "1"; "2"; "1"].

(** Two fields instead of ten. *)
Definition short_row : string := row_of ["John~^~married~^~Mary"; "r0"].

(** Ten fields, the first offset not a number. *)
Definition nonnumeric_row : string :=
  row_of ["John"; "john"; "NNP"; "root"; "PERSON"; "r2"; "zero"; "1"; "0"; "1"].

(** The fields of [good_row], and the features generated for it *)
Definition good_fields : Fields :=
  {| words := ["John"; "married"; "Mary"; "yesterday"; "married"];
     lemmas := ["john"; "marry"; "mary"; "yesterday"; "marry"];
     poses := ["NNP"; "VBD"; "NNP"; "NN"; "VBD"];
     dependencies := ["nsubj"; "root"; "dobj"; "tmod"; "dep"];
     ners := ["PERSON"; "O"; "PERSON"; "DATE"; "O"];
     relation_id := "r1";
     p1_start := 0; p1_length := 1; p2_start := 2; p2_length := 1 |}.

Definition good_features : list string :=
  ["LEMMA_john"; "LEMMA_marry"; "LEMMA_mary"; "LEMMA_yesterday"; "LEMMA_marry"].

(** Ten fields; two words and one lemma. *)
Definition misaligned_row : string :=
  row_of ["John~^~Mary"; "john"; "NNP~^~NNP"; "nsubj~^~dobj"; "PERSON~^~PERSON";
          "r3"; "0"; "1"; "1"; "1"].

Definition misaligned_fields : Fields :=
  {| words := ["John"; "Mary"]; lemmas := ["john"]; poses := ["NNP"; "NNP"];
     dependencies := ["nsubj"; "dobj"]; ners := ["PERSON"; "PERSON"];
     relation_id := "r3";
     p1_start := 0; p1_length := 1; p2_start := 1; p2_length := 1 |}.

(** An empty line *)
Definition blank_row : string := row_of [].

End Fixture.

(** ** Facts about the builtins *)

Module PyFacts.

Lemma split_from_nonempty sep k s : split_from sep k s ≠ [].
Proof.
  revert k; induction s as [|c r IH]; intros k; cbn [split_from]; [done|].
  destruct k as [|k]; [|apply IH].
  destruct (String.prefix sep (String c r)); [done|].
  destruct (split_from sep 0 r); done.
Qed.

(** The three equations of [split] at a separator of one character. *)
Lemma split_char_nil c : split (String c "") "" = [""].
Proof. reflexivity. Qed.

Lemma split_char_sep c r :
  split (String c "") (String c r) = "" :: split (String c "") r.
Proof.
  unfold split; simpl.
  destruct (ascii_dec c c) as [_|Hne]; [|done].
  destruct r; reflexivity.
Qed.

Lemma split_char_other c d r :
  d ≠ c →
  split (String c "") (String d r) =
  match split (String c "") r with
  | piece :: pieces => String d piece :: pieces
  | [] => [String d ""]
  end.
Proof.
  intros Hne; unfold split; simpl.
  destruct (ascii_dec c d) as [->|_]; [done|reflexivity].
Qed.



Lemma for_each_print {O X} (g : X → O) (l : list X) :
  for_each l (fun x => print (g x)) = (g <$> l, Ok tt).
Proof.
  induction l as [|x l IH]; [reflexivity|].
  simpl. unfold mbind, io_bind at 1. simpl. rewrite IH. reflexivity.
Qed.

Lemma for_each_ext {O X} (body body' : X → io O unit) (l : list X) :
  (∀ x, body x = body' x) → for_each l body = for_each l body'.
Proof.
  intros E; induction l as [|x l IH]; [reflexivity|].
  simpl. rewrite E, IH. reflexivity.
Qed.

Lemma lift_ok_bind {O A B} (a : A) (f : A → io O B) : lift (Ok a) ≫= f = f a.
Proof. unfold mbind, io_bind, lift. simpl. by destruct (f a). Qed.

(** A loop over the concatenation of two lists is the two loops in turn. *)
Lemma for_each_app {O X} (body : X → io O unit) (l1 l2 : list X) :
  for_each (l1 ++ l2) body = for_each l1 body ≫= fun _ => for_each l2 body.
Proof.
  induction l1 as [|x l1 IH]; simpl.
  - symmetry. apply (lift_ok_bind tt (fun _ => for_each l2 body)).
  - rewrite IH. unfold mbind, io_bind.
    destruct (body x) as [o [[]|e]]; simpl; [|reflexivity].
    destruct (for_each l1 body) as [o1 [[]|e1]]; simpl; [|reflexivity].
    by rewrite app_assoc.
Qed.

End PyFacts.

(** ** The word extractor *)

Module WordExtractorFacts.
Import PyFacts WordExtractor.

#[local] Instance line_inj n : Inj (=) (=) (fun word => JArr [JInt n; JStr word]).
Proof. intros w1 w2 E. by injection E. Qed.

Lemma extract_title_lines n (pieces : list string) l :
  l ∈ (fun word => JArr [JInt n; JStr word]) <$> elements (list_to_set pieces : gset string)
  ↔ ∃ w, w ∈ pieces ∧ l = JArr [JInt n; JStr w].
Proof.
  rewrite list_elem_of_fmap. split.
  - intros (w & -> & Hw). exists w.
    by rewrite elem_of_elements, elem_of_list_to_set in Hw.
  - intros (w & Hw & ->). exists w.
    by rewrite elem_of_elements, elem_of_list_to_set.
Qed.

Section Script.

Variable int_of_unicode : string -> result Z.

Abbreviation int := (int int_of_unicode).
Abbreviation extract := (extract int_of_unicode).

Lemma extract_title title_id s has_entities n :
  int title_id = Ok n →
  extract [title_id; JStr s; has_entities] =
  ((fun word => JArr [JInt n; JStr word])
     <$> elements (list_to_set (split " " s) : gset string), Ok tt).
Proof.
  intros Hn. unfold extract, title_split. rewrite lift_ok_bind.
  rewrite <- for_each_print. apply for_each_ext; intros word.
  rewrite Hn. exact (lift_ok_bind n (fun n => print (JArr [JInt n; JStr word]))).
Qed.

(** C8, amended: for a line [[titleId, title, hasEntities]] whose
    [titleId] converts to the integer [n], a null title prints nothing, and
    a string title prints exactly one line [[n, piece]] per distinct piece
    of the title cut at every single space character. *)
Theorem extract_one_line_per_piece title_id title has_entities n :
  int title_id = Ok n →
  extract [title_id; JNull; has_entities] = ([], Ok tt) ∧
  ∃ out, extract [title_id; JStr title; has_entities] = (out, Ok tt) ∧
         one_line_per_word (split " ") n title out.
Proof.
  intros Hn. split; [reflexivity|].
  eexists. split; [by apply extract_title|]. split.
  - apply NoDup_fmap; [apply _|apply NoDup_elements].
  - intros l. by apply extract_title_lines.
Qed.


End Script.

(** C8, as the specification words it, fails.  The title [a\tb] has the
    two whitespace-delimited words [a] and [b], and the extractor prints
    one line, for the whole title; the title with two spaces between [a]
    and [b] has the same two words, and the extractor prints a third line,
    for the empty string between the spaces. *)
Lemma whitespace_words_counterexample :
  (whitespace_words tab_title = ["a"; "b"] ∧
   extract int_of_str [JInt 1; JStr tab_title; JBool true] = ([JArr [JInt 1; JStr tab_title]], Ok tt) ∧
   ¬ one_line_per_word whitespace_words 1 tab_title [JArr [JInt 1; JStr tab_title]]) ∧
  (whitespace_words spaces_title = ["a"; "b"] ∧
   ∃ out, extract int_of_str [JInt 1; JStr spaces_title; JBool true] = (out, Ok tt) ∧
          JArr [JInt 1; JStr ""] ∈ out ∧
          ¬ one_line_per_word whitespace_words 1 spaces_title out).
Proof.
  split.
  - split; [reflexivity|]. split; [reflexivity|].
    intros [_ H].
    destruct (proj1 (H (JArr [JInt 1; JStr tab_title]))) as (w & Hw & Ew).
    + apply list_elem_of_here.
    + injection Ew as <-. apply list_elem_of_In in Hw. vm_compute in Hw.
      intuition discriminate.
  - split; [reflexivity|].
    eexists. split; [apply extract_title; reflexivity|].
    assert (JArr [JInt 1; JStr ""] ∈
            (λ word, JArr [JInt 1; JStr word]) <$>
              elements (list_to_set (split " " spaces_title) : gset string)) as Hin.
    { apply extract_title_lines. exists "". split; [|reflexivity].
      apply list_elem_of_In. vm_compute. tauto. }
    split; [exact Hin|].
    intros [_ H]. destruct (proj1 (H _) Hin) as (w & Hw & Ew).
    injection Ew as <-. apply list_elem_of_In in Hw. vm_compute in Hw.
    intuition discriminate.
Qed.

Lemma extract_one_line_per_piece_witness :
  extract int_of_str [JInt 1; JNull; JBool true] = ([], Ok tt) ∧
  ∃ out, extract int_of_str [JInt 1; JStr "The Quick Fox"; JBool true] = (out, Ok tt) ∧
         one_line_per_word (split " ") 1 "The Quick Fox" out.
Proof.
  apply (extract_one_line_per_piece int_of_str (JInt 1) "The Quick Fox" (JBool true) 1).
  reflexivity.
Defined.


End WordExtractorFacts.

(** ** The recall evaluator *)

Module ComputeRecallFacts.
Import PyFacts ComputeRecall.

Lemma true_positives_cons rid_exp key entry items :
  true_positives rid_exp ((key, entry) :: items) =
  ((if correct entry && expected rid_exp key then 1 else 0) +
   true_positives rid_exp items)%nat.
Proof.
  unfold true_positives; simpl.
  by destruct (correct entry && expected rid_exp key).
Qed.

Lemma false_negatives_cons rid_exp key entry items :
  false_negatives rid_exp ((key, entry) :: items) =
  ((if correct entry && below rid_exp key then 1 else 0) +
   false_negatives rid_exp items)%nat.
Proof.
  unfold false_negatives; simpl.
  by destruct (correct entry && below rid_exp key).
Qed.

(** One turn of the loop on an entry it can handle. *)
Lemma count_label_handled rid_exp positive_correct tot_correct key entry :
  handled rid_exp key entry = true →
  count_label rid_exp (positive_correct, tot_correct) key entry =
  Ok (positive_correct + (if correct entry && expected rid_exp key then 1 else 0),
      tot_correct + (if correct entry && expected rid_exp key then 1 else 0)
                  + (if correct entry && below rid_exp key then 1 else 0)) ∧
  (if correct entry then 1 else 0)%nat =
  ((if correct entry && expected rid_exp key then 1 else 0) +
   (if correct entry && below rid_exp key then 1 else 0))%nat.
Proof.
  unfold handled, count_label, correct, expected, below.
  destruct (subscript entry "is_correct") as [v|]; [|done]. simpl.
  destruct (eq_True v); simpl.
  - destruct (rid_exp !! key) as [expectation|]; [|done]. intros _; simpl.
    destruct (Qle_bool threshold expectation); simpl; split; try done; do 2 f_equal; lia.
  - intros _. split; [|done]. do 2 f_equal; lia.
Qed.

Section Handled.

Variable rid_exp : gmap string Q.

(** The loop on entries it can handle ends with the counts of the
    specification added to the counters. *)
Lemma count_labels_handled items : ∀ positive_correct tot_correct,
  forallb (fun item => handled rid_exp item.1 item.2) items = true →
  count_labels rid_exp (positive_correct, tot_correct) items =
  Ok (positive_correct + Z.of_nat (true_positives rid_exp items),
      tot_correct + Z.of_nat (true_positives rid_exp items)
                  + Z.of_nat (false_negatives rid_exp items)).
Proof.
  induction items as [|[key entry] items IH]; intros pc tc H; simpl in H.
  - cbn. do 2 f_equal; lia.
  - apply andb_prop in H as [H1 H2]. cbn [count_labels].
    rewrite (proj1 (count_label_handled _ _ _ _ _ H1)). cbn [mbind result_bind].
    rewrite (IH _ _ H2), true_positives_cons, false_negatives_cons.
    destruct (correct entry && expected rid_exp key),
             (correct entry && below rid_exp key); do 2 f_equal; lia.
Qed.

(** Among entries the loop can handle, a correct label is a true positive
    or a false negative. *)
Lemma correct_labels_split items :
  forallb (fun item => handled rid_exp item.1 item.2) items = true →
  correct_labels items =
  (true_positives rid_exp items + false_negatives rid_exp items)%nat.
Proof.
  induction items as [|[key entry] items IH]; [reflexivity|]. simpl.
  intros [H1 H2]%andb_prop.
  rewrite true_positives_cons, false_negatives_cons.
  pose proof (proj2 (count_label_handled rid_exp 0 0 _ _ H1)) as E.
  specialize (IH H2). unfold correct_labels in *; simpl.
  destruct (correct entry); simpl in *; lia.
Qed.

Lemma joined_forallb (labels : gmap string json) :
  joined rid_exp labels →
  forallb (fun item => handled rid_exp item.1 item.2) (map_to_list labels) = true.
Proof.
  intros H. apply forallb_forall. intros [key entry] Hin. simpl.
  apply (H key entry). by apply elem_of_map_to_list, list_elem_of_In.
Qed.

End Handled.

(** A run whose expectations load and whose labels can be handled goes
    through both loops and reports the counts. *)
Lemma main_joined float (labels : gmap string json) rows rid_exp :
  read_expectations float ∅ (drop 1 rows) = Ok rid_exp →
  joined rid_exp labels →
  main float labels rows =
  report labels
    (Z.of_nat (true_positives rid_exp (map_to_list labels)),
     Z.of_nat (true_positives rid_exp (map_to_list labels))
     + Z.of_nat (false_negatives rid_exp (map_to_list labels))).
Proof.
  intros Hread Hjoined. unfold main. rewrite Hread, lift_ok_bind.
  rewrite (count_labels_handled _ _ _ _ (joined_forallb _ _ Hjoined)).
  by rewrite lift_ok_bind.
Qed.

(** C7: when the expectations load and the labels can be handled, the
    evaluator prints the number of labels, the true positives (the labels
    that are correct and have an expectation of at least 0.9), the false
    negatives (correct, expectation below 0.9) and, when there is a correct
    label, the recall [tp / (tp + fn)].  The witness is the example of the
    specification: 1 true positive, 1 false negative, recall one half. *)
Theorem recall_counts float (labels : gmap string json) rows rid_exp :
  read_expectations float ∅ (drop 1 rows) = Ok rid_exp →
  joined rid_exp labels →
  let tp := Z.of_nat (true_positives rid_exp (map_to_list labels)) in
  let fn := Z.of_nat (false_negatives rid_exp (map_to_list labels)) in
  tp + fn ≠ 0 →
  main float labels rows =
  ([Labels (size labels); TruePositive tp; FalseNegative fn;
    Recall (Qred (inject_Z tp / inject_Z (tp + fn)))], Ok tt).
Proof.
  intros Hread Hjoined tp fn Hne.
  rewrite (main_joined _ _ _ _ Hread Hjoined). fold tp fn.
  unfold report, divide. destruct (Z.eqb_spec (tp + fn) 0) as [|_]; [done|].
  cbn. do 5 f_equal. lia.
Qed.

Lemma recall_counts_witness :
  main example_float example_labels example_rows =
  ([Labels 2; TruePositive 1; FalseNegative 1; Recall (1 # 2)], Ok tt).
Proof.
  refine (recall_counts example_float example_labels example_rows example_rid_exp _ _ _).
  - reflexivity.
  - unfold joined. refine (bool_decide_unpack _ _). vm_compute. exact I.
  - vm_compute. discriminate.
Defined.

(** C2, as stated, fails: with no correct label the three counts are
    printed, then the division raises and no recall is printed. *)
Lemma zero_correct_labels_counterexample :
  correct_labels (map_to_list incorrect_labels) = 0%nat ∧
  (main example_float incorrect_labels example_rows).2 = Raise ZeroDivisionError ∧
  ∀ q, Recall q ∉ (main example_float incorrect_labels example_rows).1.
Proof.
  split; [reflexivity|]. split; [reflexivity|].
  intros q Hin. apply list_elem_of_In in Hin. vm_compute in Hin.
  intuition discriminate.
Qed.

(** C2, amended: when no label is correct (and the expectations load and
    every entry has the field), the evaluator prints the number of labels,
    0 true positives and 0 false negatives, and then stops with
    [ZeroDivisionError]: no recall is printed. *)
Theorem no_correct_label_division_error float (labels : gmap string json) rows rid_exp :
  read_expectations float ∅ (drop 1 rows) = Ok rid_exp →
  joined rid_exp labels →
  correct_labels (map_to_list labels) = 0%nat →
  main float labels rows =
  ([Labels (size labels); TruePositive 0; FalseNegative 0], Raise ZeroDivisionError).
Proof.
  intros Hread Hjoined Hzero.
  rewrite (main_joined _ _ _ _ Hread Hjoined).
  rewrite (correct_labels_split rid_exp _ (joined_forallb _ _ Hjoined)) in Hzero.
  assert (true_positives rid_exp (map_to_list labels) = 0%nat) as -> by lia.
  assert (false_negatives rid_exp (map_to_list labels) = 0%nat) as -> by lia.
  reflexivity.
Qed.

Lemma no_correct_label_division_error_witness :
  main example_float incorrect_labels example_rows =
  ([Labels 2; TruePositive 0; FalseNegative 0], Raise ZeroDivisionError).
Proof.
  refine (no_correct_label_division_error
            example_float incorrect_labels example_rows example_rid_exp _ _ _).
  - reflexivity.
  - unfold joined. refine (bool_decide_unpack _ _). vm_compute. exact I.
  - reflexivity.
Defined.

Lemma count_label_not_correct rid_exp counters key entry :
  not_correct entry → count_label rid_exp counters key entry = Ok counters.
Proof.
  intros (v & Hv & Hfalse). destruct counters as [pc tc].
  unfold count_label. rewrite Hv. cbn [mbind result_bind]. by rewrite Hfalse.
Qed.

(** The loop looks at the expectations of the correct labels only. *)
Lemma count_labels_agree rid_exp rid_exp' items : ∀ counters,
  (∀ key entry, (key, entry) ∈ items → correct entry = true →
                rid_exp !! key = rid_exp' !! key) →
  count_labels rid_exp counters items = count_labels rid_exp' counters items.
Proof.
  induction items as [|[key entry] items IH]; intros counters H; [reflexivity|].
  cbn [count_labels].
  assert (count_label rid_exp counters key entry =
          count_label rid_exp' counters key entry) as ->.
  { destruct counters as [pc tc]. unfold count_label.
    pose proof (H key entry (list_elem_of_here _ _)) as Hkey. unfold correct in Hkey.
    destruct (subscript entry "is_correct") as [v|]; [|reflexivity].
    cbn [mbind result_bind]. destruct (eq_True v); [|reflexivity].
    by rewrite Hkey. }
  destruct (count_label rid_exp' counters key entry); [|reflexivity].
  apply IH. intros k e Hin. apply H. by apply list_elem_of_further.
Qed.

End ComputeRecallFacts.

(** ** The feature extractor *)

Module HasSpouseFeaturesFacts.
Import PyFacts HasSpouseFeatures.

Lemma lift_bind {O A B} (r : result A) (f : A → io O B) :
  lift r ≫= f = match r with Ok a => f a | Raise e => ([], Raise e) end.
Proof. destruct r; [apply lift_ok_bind|reflexivity]. Qed.

Lemma bind_ret {O} (m : io O unit) : m ≫= (fun _ => mret tt) = m.
Proof.
  destruct m as [o [[]|e]]; unfold mbind, io_bind; simpl; [|reflexivity].
  by rewrite app_nil_r.
Qed.

Lemma append_inj_r (s a b : string) : s +:+ a = s +:+ b → a = b.
Proof. induction s as [|c s IH]; simpl; [done|]. intros [= E]. by apply IH. Qed.

(** [int(x)] raises nothing but [ValueError]. *)
Lemma int_of_str_raise s e : int_of_str s = Raise e → e = ValueError.
Proof.
  unfold int_of_str, from_option. destruct (match strip s with "" => _ | _ => _ end); [done|].
  by intros [= <-].
Qed.

(** The list comprehension: the results in order, or the first exception. *)
Lemma mapM_result {A B} (f : A → result B) (l : list A) :
  match mapM f l with
  | Ok k => Forall2 (fun x y => f x = Ok y) l k
  | Raise e => ∃ x, x ∈ l ∧ f x = Raise e
  end.
Proof.
  induction l as [|x l IH]; cbn; [constructor|].
  destruct (f x) as [y|e] eqn:E; cbn.
  - destruct (mapM f l) as [k|e]; cbn.
    + by constructor.
    + destruct IH as (x' & Hin & Hx'). exists x'. split; [by right|done].
  - exists x. split; [by left|done].
Qed.

Lemma parse_fields_malformed row :
  malformed row →
  parse_fields row = Raise IndexError ∨ parse_fields row = Raise ValueError.
Proof.
  unfold malformed, parse_fields. generalize (split TAB (strip row)) as parts.
  intros parts H.
  destruct parts as [|a [|b [|c [|d [|e [|r rest]]]]]]; try (left; reflexivity).
  right. cbn. rewrite drop_0. cbn [drop] in H. rewrite drop_0 in H.
  pose proof (mapM_result int_of_str rest) as HM.
  destruct (mapM int_of_str rest) as [offsets|err]; cbn.
  - destruct H as [Hlen|(x & Hin & Hx)].
    + apply Forall2_length in HM. cbn [length] in Hlen.
      destruct offsets as [|? [|? [|? [|? [|? ?]]]]]; try reflexivity.
      simpl in HM. lia.
    + exfalso. revert Hin Hx. clear -HM.
      induction HM as [|x' y l k Hx' _ IH]; [by intros ?%not_elem_of_nil|].
      intros [->|Hin]%elem_of_cons Hx; [congruence|by apply IH].
  - destruct HM as (x & _ & Hx). by rewrite (int_of_str_raise _ _ Hx).
Qed.

Section Script.

Context {Store Sentence SpanT : Type}.
Variable get_sentence :
  list Z -> list Z -> list string -> list string -> list string ->
  list string -> list string -> result Sentence.
Variable Span : Z -> Z -> result SpanT.
Variable get_generic_features_relation :
  Store -> Sentence -> SpanT -> SpanT -> result (list string).

Abbreviation process_row := (process_row get_sentence Span get_generic_features_relation).
Abbreviation process_rows := (process_rows get_sentence Span get_generic_features_relation).
Abbreviation features_of := (features_of get_sentence Span get_generic_features_relation).

(** A row prints nothing and raises, or prints one line per feature of the
    set and ends normally. *)
Lemma process_row_cases (dicts : Store) row :
  (∃ e, process_row dicts row = ([], Raise e)) ∨
  (∃ f (features : gset string), parse_fields row = Ok f ∧
     process_row dicts row =
     ((fun feature => relation_id f +:+ TAB +:+ feature) <$> elements features, Ok tt)).
Proof.
  unfold HasSpouseFeatures.process_row. rewrite lift_bind.
  destruct (parse_fields row) as [f|e]; [|left; by eexists].
  rewrite lift_bind. destruct (build_sentence get_sentence f); [|left; by eexists].
  rewrite lift_bind. destruct (resolve_spans Span f); [|left; by eexists].
  rewrite lift_bind.
  destruct (generate get_generic_features_relation dicts _ _ _) as [features|];
    [|left; by eexists].
  right. exists f, features. split; [reflexivity|]. apply for_each_print.
Qed.

Lemma process_row_malformed (dicts : Store) row :
  malformed row →
  process_row dicts row = ([], Raise IndexError) ∨
  process_row dicts row = ([], Raise ValueError).
Proof.
  intros H. unfold HasSpouseFeatures.process_row. rewrite lift_bind.
  destruct (parse_fields_malformed row H) as [-> | ->]; auto.
Qed.

Lemma process_rows_app (dicts : Store) rows1 rows2 :
  process_rows dicts (rows1 ++ rows2) =
  process_rows dicts rows1 ≫= fun _ => process_rows dicts rows2.
Proof. apply for_each_app. Qed.

(** After rows that ran to the end, the run goes on with the next rows. *)
Lemma process_rows_after (dicts : Store) pre rows :
  (process_rows dicts pre).2 = Ok tt →
  process_rows dicts (pre ++ rows) =
  ((process_rows dicts pre).1 ++ (process_rows dicts rows).1,
   (process_rows dicts rows).2).
Proof.
  intros H. rewrite process_rows_app. unfold mbind, io_bind. by rewrite H.
Qed.

Lemma process_row_features (dicts : Store) row :
  process_row dicts row =
  f ← lift (parse_fields row);
  features ← lift (features_of dicts f);
  emit (relation_id f) features.
Proof.
  unfold HasSpouseFeatures.process_row, HasSpouseFeatures.features_of. rewrite !lift_bind.
  destruct (parse_fields row) as [f|]; [|reflexivity].
  rewrite !lift_bind. destruct (build_sentence get_sentence f); [|reflexivity].
  cbn [mbind result_bind]. rewrite !lift_bind.
  destruct (resolve_spans Span f); [|reflexivity].
  cbn [mbind result_bind]. by rewrite !lift_bind.
Qed.

(** C1, amended: a malformed row (not ten tab-separated fields, or a field
    after the sixth that is not an integer) prints nothing and raises
    [IndexError] or [ValueError]; the exception ends the run, so that after
    rows that ran to the end the output is theirs and no later row is
    processed. *)
Theorem malformed_row_stops_run (dicts : Store) pre row post :
  malformed row →
  (process_rows dicts pre).2 = Ok tt →
  ∃ e, (e = IndexError ∨ e = ValueError) ∧
       process_row dicts row = ([], Raise e) ∧
       process_rows dicts (pre ++ row :: post) = ((process_rows dicts pre).1, Raise e).
Proof.
  intros Hrow Hpre.
  assert (∃ e, (e = IndexError ∨ e = ValueError) ∧ process_row dicts row = ([], Raise e))
    as (e & He & Hrun).
  { destruct (process_row_malformed dicts row Hrow); eauto. }
  exists e. split; [exact He|]. split; [exact Hrun|].
  rewrite (process_rows_after _ _ _ Hpre).
  unfold HasSpouseFeatures.process_rows at 2 3. cbn [for_each].
  rewrite Hrun. cbn. by rewrite app_nil_r.
Qed.

(** C5: the lines a row prints are pairwise different. *)
Theorem emitted_lines_unique (dicts : Store) row :
  NoDup (process_row dicts row).1.
Proof.
  destruct (process_row_cases dicts row) as [[e ->]|(f & features & _ & ->)]; simpl.
  - constructor.
  - apply NoDup_fmap; [|apply NoDup_elements].
    intros a b E. by apply append_inj_r, append_inj_r in E.
Qed.

End Script.

Lemma malformed_row_stops_run_witness :
  ∃ e, (e = IndexError ∨ e = ValueError) ∧
       process_row Fixture.get_sentence Fixture.Span Fixture.get_generic_features_relation
         (∅ : Fixture.Store) Fixture.short_row = ([], Raise e) ∧
       Fixture.process_rows ([Fixture.good_row] ++ Fixture.short_row :: [Fixture.good_row]) =
       ((Fixture.process_rows [Fixture.good_row]).1, Raise e).
Proof.
  apply (malformed_row_stops_run Fixture.get_sentence Fixture.Span
           Fixture.get_generic_features_relation (∅ : Fixture.Store)
           [Fixture.good_row] Fixture.short_row [Fixture.good_row]).
  - left. vm_compute. discriminate.
  - reflexivity.
Defined.

(** C1, as stated, fails: a row of two fields, and a row whose first offset
    is not a number, each end the run; the well-formed row after it, which
    prints four lines when it runs, is not processed. *)
Lemma malformed_row_counterexample :
  malformed Fixture.short_row ∧ malformed Fixture.nonnumeric_row ∧
  (∃ lines, Fixture.process_rows [Fixture.good_row] = (lines, Ok tt) ∧ length lines = 4%nat) ∧
  Fixture.process_rows [Fixture.short_row; Fixture.good_row] = ([], Raise IndexError) ∧
  Fixture.process_rows [Fixture.nonnumeric_row; Fixture.good_row] = ([], Raise ValueError).
Proof.
  split; [left; vm_compute; discriminate|].
  split; [right; exists "zero"; split; [|reflexivity]; apply list_elem_of_In; vm_compute; tauto|].
  split; [eexists; split; [vm_compute; reflexivity|reflexivity]|].
  split; vm_compute; reflexivity.
Qed.

End HasSpouseFeaturesFacts.

(** ** Sentence construction *)

Module DdlibFacts.
Import Ddlib.

Lemma aligned_forallb bs es ws ls ps ds ns :
  forallb (Nat.eqb (length ws))
    [length bs; length es; length ls; length ps; length ds; length ns] = true
  ↔ aligned bs es ws ls ps ds ns.
Proof.
  unfold aligned. cbn [forallb].
  rewrite !andb_true_iff, !Nat.eqb_eq. intuition congruence.
Qed.

Lemma tokens_from_length ws : ∀ i ls ps ds ns,
  length ls = length ws → length ps = length ws →
  length ds = length ws → length ns = length ws →
  length (tokens_from i ws ls ps ds ns) = length ws.
Proof.
  induction ws as [|w ws IH]; intros i ls ps ds ns Hl Hp Hd Hn; [reflexivity|].
  destruct ls as [|l ls], ps as [|p ps], ds as [|d ds], ns as [|n ns]; try discriminate.
  simpl in *. f_equal. apply IH; congruence.
Qed.

Lemma tokens_from_lookup ws : ∀ i ls ps ds ns k w l p d n,
  ws !! k = Some w → ls !! k = Some l → ps !! k = Some p →
  ds !! k = Some d → ns !! k = Some n →
  tokens_from i ws ls ps ds ns !! k =
  Some {| text := w; lemma := l; partOfSpeech := p; dependencyLabel := d;
          namedEntityTag := n; positionIndex := i + k |}.
Proof.
  induction ws as [|w0 ws IH]; intros i ls ps ds ns k w l p d n Hw Hl Hp Hd Hn;
    [discriminate|].
  destruct ls as [|l0 ls], ps as [|p0 ps], ds as [|d0 ds], ns as [|n0 ns];
    try discriminate.
  destruct k as [|k]; simpl in *.
  - injection Hw as <-. injection Hl as <-. injection Hp as <-.
    injection Hd as <-. injection Hn as <-. by rewrite Nat.add_0_r.
  - rewrite (IH (S i) ls ps ds ns k w l p d n) by done.
    do 2 f_equal. lia.
Qed.

(** C6: sentence construction fails with [MalformedInputError] when a
    sequence is absent or the lengths disagree; on seven sequences of one
    length [N] it succeeds, and the sentence has [N] tokens, the token at
    each position made of the entries at that position. *)
Theorem sentence_construction :
  (∀ bs es ws ls ps ds ns,
     bs = None ∨ es = None ∨ ws = None ∨ ls = None ∨ ps = None ∨ ds = None ∨ ns = None →
     get_sentence bs es ws ls ps ds ns = Raise MalformedInputError) ∧
  (∀ bs es ws ls ps ds ns,
     ¬ aligned bs es ws ls ps ds ns →
     get_sentence (Some bs) (Some es) (Some ws) (Some ls) (Some ps) (Some ds) (Some ns)
     = Raise MalformedInputError) ∧
  (∀ bs es ws ls ps ds ns,
     aligned bs es ws ls ps ds ns →
     ∃ sentence,
       get_sentence (Some bs) (Some es) (Some ws) (Some ls) (Some ps) (Some ds) (Some ns)
       = Ok sentence ∧
       length (tokens sentence) = length ws ∧
       begin_char_offsets sentence = bs ∧ end_char_offsets sentence = es ∧
       ∀ k w l p d n,
         ws !! k = Some w → ls !! k = Some l → ps !! k = Some p →
         ds !! k = Some d → ns !! k = Some n →
         tokens sentence !! k =
         Some {| text := w; lemma := l; partOfSpeech := p; dependencyLabel := d;
                 namedEntityTag := n; positionIndex := k |}).
Proof.
  split; [|split].
  - intros bs es ws ls ps ds ns H.
    destruct bs, es, ws, ls, ps, ds, ns; try reflexivity.
    exfalso. intuition discriminate.
  - intros bs es ws ls ps ds ns H. unfold get_sentence.
    destruct (forallb _ _) eqn:E; [|reflexivity].
    by apply aligned_forallb in E.
  - intros bs es ws ls ps ds ns H. unfold get_sentence.
    rewrite (proj2 (aligned_forallb _ _ _ _ _ _ _) H).
    eexists. split; [reflexivity|]. cbn [tokens begin_char_offsets end_char_offsets].
    destruct H as (_ & _ & Hl & Hp & Hd & Hn).
    split; [by apply tokens_from_length|]. split; [reflexivity|]. split; [reflexivity|].
    intros k w l p d n ? ? ? ? ?. by apply tokens_from_lookup.
Qed.

Lemma sentence_construction_witness :
  get_sentence (Some [0; 0]) None (Some ["John"; "Mary"]) (Some ["john"; "mary"])
    (Some ["NNP"; "NNP"]) (Some ["nsubj"; "dobj"]) (Some ["PERSON"; "PERSON"])
  = Raise MalformedInputError ∧
  get_sentence (Some [0; 0]) (Some [0; 0]) (Some ["John"; "Mary"]) (Some ["john"])
    (Some ["NNP"; "NNP"]) (Some ["nsubj"; "dobj"]) (Some ["PERSON"; "PERSON"])
  = Raise MalformedInputError ∧
  ∃ sentence,
    get_sentence (Some [0; 0]) (Some [0; 0]) (Some ["John"; "Mary"]) (Some ["john"; "mary"])
      (Some ["NNP"; "NNP"]) (Some ["nsubj"; "dobj"]) (Some ["PERSON"; "PERSON"])
    = Ok sentence ∧
    length (tokens sentence) = 2%nat ∧
    tokens sentence !! 1%nat =
    Some {| text := "Mary"; lemma := "mary"; partOfSpeech := "NNP";
            dependencyLabel := "dobj"; namedEntityTag := "PERSON"; positionIndex := 1 |}.
Proof.
  destruct sentence_construction as (Habsent & Hlengths & Hbuilt).
  split; [|split].
  - apply Habsent. tauto.
  - apply Hlengths. unfold aligned; simpl. lia.
  - destruct (Hbuilt [0; 0] [0; 0] ["John"; "Mary"] ["john"; "mary"] ["NNP"; "NNP"]
                ["nsubj"; "dobj"] ["PERSON"; "PERSON"])
      as (sentence & Hs & Hlen & _ & _ & Htok); [by repeat split|].
    exists sentence. split; [exact Hs|]. split; [exact Hlen|]. by apply Htok.
Defined.

End DdlibFacts.

(** ** More on the builtins: cutting a string, running a loop *)

Module PyExtra.
Import PyFacts.

Lemma split_char_length c s :
  length (split (String c "") s) = S (count_char c s).
Proof.
  induction s as [|d r IH]; [reflexivity|]. cbn [count_char].
  destruct (decide (d = c)) as [->|Hne].
  - rewrite split_char_sep. simpl. by rewrite IH.
  - rewrite split_char_other by done.
    destruct (split (String c "") r) eqn:E; [by apply split_from_nonempty in E|].
    simpl in *. lia.
Qed.

Lemma split_char_pieces c s : ∀ p, p ∈ split (String c "") s → occurs c p = false.
Proof.
  induction s as [|d r IH]; intros p.
  - rewrite split_char_nil. by intros ->%list_elem_of_singleton.
  - destruct (decide (d = c)) as [->|Hne].
    + rewrite split_char_sep. intros [->|Hin]%elem_of_cons; [reflexivity|by apply IH].
    + rewrite split_char_other by done.
      destruct (split (String c "") r) as [|q qs] eqn:E;
        [by apply split_from_nonempty in E|].
      intros [->|Hin]%elem_of_cons.
      * cbn [occurs]. destruct (decide (d = c)); [done|]. apply IH. by left.
      * apply IH. by right.
Qed.

Lemma split_char_concat c s :
  String.concat (String c "") (split (String c "") s) = s.
Proof.
  induction s as [|d r IH]; [reflexivity|].
  destruct (decide (d = c)) as [->|Hne].
  - rewrite split_char_sep.
    destruct (split (String c "") r) as [|q qs] eqn:E;
      [by apply split_from_nonempty in E|].
    change (String.concat (String c "") ("" :: q :: qs))
      with (String c (String.concat (String c "") (q :: qs))).
    by rewrite IH.
  - rewrite split_char_other by done.
    destruct (split (String c "") r) as [|q qs] eqn:E;
      [by apply split_from_nonempty in E|].
    rewrite <- IH. destruct qs; reflexivity.
Qed.

(** X4: cutting a string at a separator of one character loses nothing.
    The pieces joined by the separator are the string again, there is one
    piece more than the separator occurs, and no piece holds the
    separator.  This is [title.split(" ")] and [split('\t')]. *)
Theorem split_char_round_trip c s :
  String.concat (String c "") (split (String c "") s) = s ∧
  length (split (String c "") s) = S (count_char c s) ∧
  ∀ p, p ∈ split (String c "") s → occurs c p = false.
Proof.
  split; [apply split_char_concat|]. split; [apply split_char_length|].
  apply split_char_pieces.
Qed.

(** A loop whose turns all end normally prints what the turns print, in
    the order of the list. *)
Lemma for_each_all_ok {O X} (body : X → io O unit) (l : list X) :
  Forall (fun x => (body x).2 = Ok tt) l →
  for_each l body = (List.concat ((fun x => (body x).1) <$> l), Ok tt).
Proof.
  induction 1 as [|x l Hx _ IH]; [reflexivity|].
  cbn [for_each]. unfold mbind, io_bind. rewrite Hx, IH. reflexivity.
Qed.

(** A loop stops at the first turn that raises. *)
Lemma for_each_raise {O X} (body : X → io O unit) (pre post : list X) x e :
  Forall (fun x => (body x).2 = Ok tt) pre →
  (body x).2 = Raise e →
  for_each (pre ++ x :: post) body =
  (List.concat ((fun x => (body x).1) <$> pre) ++ (body x).1, Raise e).
Proof.
  intros Hpre Hx. rewrite for_each_app, (for_each_all_ok _ _ Hpre).
  cbn [for_each]. unfold mbind, io_bind. simpl. by rewrite Hx.
Qed.

Lemma lstrip_blank s : blank s = true → lstrip s = "".
Proof.
  induction s as [|c r IH]; [done|]. simpl.
  intros [Hc Hr]%andb_prop. rewrite Hc. by apply IH.
Qed.

Lemma strip_blank s : blank s = true → strip s = "".
Proof. intros H. unfold strip. by rewrite (lstrip_blank _ H). Qed.

(** The elements of the set of a list are no more than the list has. *)
Lemma elements_list_to_set_length (l : list string) :
  (length (elements (list_to_set l : gset string)) ≤ length l)%nat.
Proof.
  apply submseteq_length, NoDup_submseteq; [apply NoDup_elements|].
  intros x. by rewrite elem_of_elements, elem_of_list_to_set.
Qed.

End PyExtra.

(** ** More on the word extractor *)

Module WordExtractorExtra.
Import PyFacts PyExtra WordExtractor.

(** The set a title is cut into is never empty. *)
Lemma pieces_nonempty s : elements (list_to_set (split " " s) : gset string) ≠ [].
Proof.
  destruct (split " " s) as [|p ps] eqn:E; [by apply split_from_nonempty in E|].
  intros H. assert (p ∈ elements (list_to_set (p :: ps) : gset string)) as Hin.
  { rewrite elem_of_elements, elem_of_list_to_set. by left. }
  rewrite H in Hin. by apply not_elem_of_nil in Hin.
Qed.

Section Script.

Variable int_of_unicode : string -> result Z.

Abbreviation int := (int int_of_unicode).
Abbreviation extract := (extract int_of_unicode).
Abbreviation main := (main int_of_unicode).

(** What a line raises, by its cause, and that it printed nothing then. *)
Lemma extract_raise line e :
  (extract line).2 = Raise e →
  (extract line).1 = [] ∧
  match line with
  | [title_id; JStr _; _] => int title_id = Raise e
  | [_; _; _] => e = AttributeError
  | _ => e = ValueError
  end.
Proof.
  destruct line as [|title_id [|title [|has_entities [|]]]];
    try (intros [= <-]; split; [reflexivity|]; try destruct title; reflexivity).
  destruct title; try (intros [= <-]; by split).
  destruct (int title_id) as [n|e'] eqn:Hn.
  - by rewrite (WordExtractorFacts.extract_title _ _ _ _ _ Hn).
  - unfold WordExtractor.extract, title_split. rewrite lift_ok_bind.
    pose proof (pieces_nonempty s) as Hne.
    destruct (elements (list_to_set (split " " s))) as [|word words]; [done|].
    cbn [for_each]. rewrite Hn. cbn.
    intros [= <-]. by split.
Qed.

(** X1: a line prints all of its lines or none.  When the line raises,
    nothing was printed for it.  The exception is [ValueError] for an array
    that has not three elements, [AttributeError] for a title that is
    neither null nor a string, whatever the identifier is, and for a string
    title it is the exception of [int(title_id)]: [TypeError] for null and
    the containers, [OverflowError] for an infinite float. *)
Theorem extract_raise_prints_nothing line e :
  (extract line).2 = Raise e →
  (extract line).1 = [] ∧
  match line with
  | [title_id; JStr _; _] =>
      int title_id = Raise e ∧
      match title_id with
      | JNull | JArr _ | JObj _ => e = TypeError
      | JInfinity _ => e = OverflowError
      | JNaN => e = ValueError
      | JStr id => int_of_unicode id = Raise e
      | JBool _ | JInt _ | JFloat _ => False
      end
  | [_; _; _] => e = AttributeError
  | _ => e = ValueError
  end.
Proof.
  intros H. destruct (extract_raise _ _ H) as [Hout Hcause].
  split; [exact Hout|].
  destruct line as [|title_id [|title [|has_entities [|]]]];
    try exact Hcause; try (destruct title; exact Hcause).
  destruct title; try exact Hcause.
  split; [exact Hcause|].
  destruct title_id; simpl in Hcause; congruence.
Qed.

(** X2: the run prints the lines of the input lines in their order and
    stops at the first line that raises, with that exception; the lines
    after it are not read. *)
Theorem main_until_first_raise pre :
  Forall (fun line => (extract line).2 = Ok tt) pre →
  main pre = (List.concat ((fun line => (extract line).1) <$> pre), Ok tt) ∧
  ∀ line post e,
    (extract line).2 = Raise e →
    main (pre ++ line :: post) =
    (List.concat ((fun line => (extract line).1) <$> pre), Raise e).
Proof.
  intros Hpre. split; [by apply for_each_all_ok|].
  intros line post e He. unfold WordExtractor.main.
  rewrite (for_each_raise _ _ _ _ _ Hpre He).
  destruct (extract_raise _ _ He) as [-> _]. by rewrite app_nil_r.
Qed.

(** X3: a string title always prints: at least one line, the line
    [[n, ""]] for the empty title, and never more lines than the title has
    spaces, plus one; no word printed holds a space. *)
Theorem string_title_lines title_id title has_entities n :
  int title_id = Ok n →
  ∃ out, extract [title_id; JStr title; has_entities] = (out, Ok tt) ∧
         (1 ≤ length out ≤ S (count_char " " title))%nat ∧
         (title = "" → out = [JArr [JInt n; JStr ""]]) ∧
         ∀ l, l ∈ out → ∃ w, l = JArr [JInt n; JStr w] ∧ occurs " " w = false.
Proof.
  intros Hn. eexists. split; [by apply WordExtractorFacts.extract_title|].
  rewrite length_fmap. split; [split|split].
  - pose proof (pieces_nonempty title).
    destruct (elements (list_to_set (split " " title))); [done|simpl; lia].
  - rewrite <- split_char_length. apply elements_list_to_set_length.
  - intros ->. reflexivity.
  - intros l (w & -> & Hw)%list_elem_of_fmap. exists w. split; [reflexivity|].
    rewrite elem_of_elements, elem_of_list_to_set in Hw.
    by apply split_char_pieces in Hw.
Qed.

End Script.

Lemma extract_raise_prints_nothing_witness :
  (WordExtractor.extract int_of_str [JInfinity false; JStr "The Quick Fox"; JBool true]).1
  = [] ∧
  WordExtractor.int int_of_str (JInfinity false) = Raise OverflowError ∧
  OverflowError = OverflowError.
Proof.
  apply (extract_raise_prints_nothing int_of_str
           [JInfinity false; JStr "The Quick Fox"; JBool true] OverflowError).
  reflexivity.
Defined.

Lemma main_until_first_raise_witness :
  WordExtractor.main int_of_str
    [[JInt 1; JStr "The Quick Fox"; JBool true]; [JInt 2; JNull; JBool false]] =
    (List.concat ((fun line => (WordExtractor.extract int_of_str line).1) <$>
       [[JInt 1; JStr "The Quick Fox"; JBool true]; [JInt 2; JNull; JBool false]]), Ok tt) ∧
  WordExtractor.main int_of_str
    ([[JInt 1; JStr "The Quick Fox"; JBool true]; [JInt 2; JNull; JBool false]]
     ++ [JNull; JStr "Lost"; JBool true] :: [[JInt 4; JStr "Never read"; JBool true]]) =
    (List.concat ((fun line => (WordExtractor.extract int_of_str line).1) <$>
       [[JInt 1; JStr "The Quick Fox"; JBool true]; [JInt 2; JNull; JBool false]]),
     Raise TypeError).
Proof.
  destruct (main_until_first_raise int_of_str
              [[JInt 1; JStr "The Quick Fox"; JBool true]; [JInt 2; JNull; JBool false]])
    as [Hall Hstop]; [repeat constructor|].
  split; [exact Hall|]. apply Hstop. reflexivity.
Defined.

Lemma string_title_lines_witness :
  ∃ out, WordExtractor.extract int_of_str [JStr " 7 "; JStr ""; JNull] = (out, Ok tt) ∧
         (1 ≤ length out ≤ S (count_char " " ""))%nat ∧
         ("" = "" → out = [JArr [JInt 7; JStr ""]]) ∧
         ∀ l, l ∈ out → ∃ w, l = JArr [JInt 7; JStr w] ∧ occurs " " w = false.
Proof.
  apply (string_title_lines int_of_str (JStr " 7 ") "" JNull 7). reflexivity.
Defined.

End WordExtractorExtra.

(** ** More on the recall evaluator *)

Module ComputeRecallExtra.
Import PyFacts PyExtra ComputeRecall ComputeRecallFacts.

Section Reading.

Variable float : string -> result Q.

Lemma read_expectations_app sentences1 sentences2 : ∀ rid_exp,
  read_expectations float rid_exp (sentences1 ++ sentences2) =
  read_expectations float rid_exp sentences1 ≫= fun rid_exp =>
  read_expectations float rid_exp sentences2.
Proof.
  induction sentences1 as [|s rest IH]; intros rid_exp; [reflexivity|].
  cbn [app read_expectations].
  destruct (index s 0) as [relation_id|]; [|reflexivity]. cbn [mbind result_bind].
  destruct (index s 4) as [field|]; [|reflexivity]. cbn [mbind result_bind].
  destruct (float field) as [expectation|]; [|reflexivity]. cbn [mbind result_bind].
  apply IH.
Qed.

(** One row read: both subscripts and the conversion went through. *)
Lemma read_expectations_cons s rest rid_exp m :
  read_expectations float rid_exp (s :: rest) = Ok m →
  ∃ relation_id field expectation,
    s !! 0%nat = Some relation_id ∧ s !! 4%nat = Some field ∧
    float field = Ok expectation ∧
    read_expectations float (<[relation_id := expectation]> rid_exp) rest = Ok m.
Proof.
  cbn [read_expectations]. unfold index, from_option.
  destruct (s !! 0%nat) as [relation_id|]; [|done]. cbn [mbind result_bind].
  destruct (s !! 4%nat) as [field|]; [|done]. cbn [mbind result_bind].
  destruct (float field) as [expectation|] eqn:E; [|done]. cbn [mbind result_bind].
  intros H. by exists relation_id, field, expectation.
Qed.

(** A key that no row names keeps what the table held for it. *)
Lemma read_expectations_other sentences : ∀ rid_exp m key,
  read_expectations float rid_exp sentences = Ok m →
  (∀ s, s ∈ sentences → s !! 0%nat ≠ Some key) →
  m !! key = rid_exp !! key.
Proof.
  induction sentences as [|s rest IH]; intros rid_exp m key Hread Hkey.
  - by injection Hread as <-.
  - apply read_expectations_cons in Hread
      as (relation_id & field & expectation & H0 & _ & _ & Hrest).
    rewrite (IH _ _ key Hrest); [|intros s' Hs'; apply Hkey; by right].
    apply lookup_insert_ne. intros ->. by apply (Hkey s); [left|].
Qed.

(** X5: the expectation table holds, for a relation id, the expectation of
    the last row that names it, and nothing for an id that no row names. *)
Theorem read_expectations_last_wins sentences m :
  read_expectations float ∅ sentences = Ok m →
  (∀ before s after relation_id field expectation,
     sentences = before ++ s :: after →
     s !! 0%nat = Some relation_id → s !! 4%nat = Some field →
     float field = Ok expectation →
     (∀ s', s' ∈ after → s' !! 0%nat ≠ Some relation_id) →
     m !! relation_id = Some expectation) ∧
  (∀ key, (∀ s, s ∈ sentences → s !! 0%nat ≠ Some key) → m !! key = None).
Proof.
  intros Hread. split.
  - intros before s after relation_id field expectation -> H0 H4 Hf Hafter.
    rewrite read_expectations_app in Hread.
    destruct (read_expectations float ∅ before) as [m1|]; [|done].
    cbn [mbind result_bind] in Hread.
    apply read_expectations_cons in Hread as (r' & f' & e' & H0' & H4' & Hf' & Hrest).
    assert (r' = relation_id) as -> by congruence.
    assert (f' = field) as -> by congruence.
    assert (e' = expectation) as -> by congruence.
    rewrite (read_expectations_other _ _ _ _ Hrest Hafter).
    apply lookup_insert_eq.
  - intros key Hkey. by rewrite (read_expectations_other _ _ _ _ Hread Hkey).
Qed.

(** X6: a row of fewer than five fields raises [IndexError], and a fifth
    field that [float] rejects raises what [float] raises; the rows after
    it are not read and the script prints nothing. *)
Theorem bad_row_stops_reading labels header before s after m :
  read_expectations float ∅ before = Ok m →
  ((length s < 5)%nat →
   read_expectations float ∅ (before ++ s :: after) = Raise IndexError ∧
   main float labels (header :: before ++ s :: after) = ([], Raise IndexError)) ∧
  (∀ field e, s !! 4%nat = Some field → float field = Raise e →
   read_expectations float ∅ (before ++ s :: after) = Raise e ∧
   main float labels (header :: before ++ s :: after) = ([], Raise e)).
Proof.
  intros Hbefore.
  assert (∀ e, read_expectations float m (s :: after) = Raise e →
     read_expectations float ∅ (before ++ s :: after) = Raise e ∧
     main float labels (header :: before ++ s :: after) = ([], Raise e)) as Hstop.
  { intros e He.
    assert (read_expectations float ∅ (before ++ s :: after) = Raise e) as Hread.
    { by rewrite read_expectations_app, Hbefore. }
    split; [exact Hread|]. unfold main. cbn [drop]. rewrite drop_0. by rewrite Hread. }
  split.
  - intros Hlen. apply Hstop.
    destruct s as [|a [|b [|c [|d [|e' ?]]]]]; simpl in Hlen; try lia; reflexivity.
  - intros field e H4 Hf. apply Hstop. cbn [read_expectations]. unfold index.
    destruct (s !! 0%nat) as [relation_id|] eqn:H0.
    + rewrite H4. cbn. by rewrite Hf.
    + destruct s; [done|discriminate].
Qed.

End Reading.

Lemma read_expectations_last_wins_witness :
  (∀ before s after relation_id field expectation,
     drop 1 example_rows = before ++ s :: after →
     s !! 0%nat = Some relation_id → s !! 4%nat = Some field →
     example_float field = Ok expectation →
     (∀ s', s' ∈ after → s' !! 0%nat ≠ Some relation_id) →
     example_rid_exp !! relation_id = Some expectation) ∧
  (∀ key, (∀ s, s ∈ drop 1 example_rows → s !! 0%nat ≠ Some key) →
          example_rid_exp !! key = None).
Proof.
  apply (read_expectations_last_wins example_float (drop 1 example_rows) example_rid_exp).
  reflexivity.
Defined.

Lemma bad_row_stops_reading_witness :
  read_expectations example_float ∅ (drop 1 example_rows ++ ["r4"; "0.95"] :: [unlabelled_row])
  = Raise IndexError ∧
  main example_float example_labels
    (["relation_id"] :: drop 1 example_rows ++ ["r4"; "0.95"] :: [unlabelled_row])
  = ([], Raise IndexError).
Proof.
  apply (bad_row_stops_reading example_float example_labels ["relation_id"]
           (drop 1 example_rows) ["r4"; "0.95"] [unlabelled_row] example_rid_exp).
  - reflexivity.
  - simpl. lia.
Defined.

(** *** The label loop *)

(** A turn that ends normally was on an entry the loop can handle, and
    moved the counters by zero or one, [positive_correct] no further than
    [tot_correct]. *)
Lemma count_label_ok rid_exp pc tc key entry pc' tc' :
  count_label rid_exp (pc, tc) key entry = Ok (pc', tc') →
  handled rid_exp key entry = true ∧
  pc ≤ pc' ∧ pc' - pc ≤ tc' - tc ∧ tc' - tc ≤ 1.
Proof.
  unfold count_label, handled.
  destruct (subscript entry "is_correct") as [v|]; [|done]. cbn [mbind result_bind].
  destruct (eq_True v).
  - destruct (rid_exp !! key) as [expectation|]; [|done]. cbn.
    destruct (Qle_bool threshold expectation); intros [= <- <-]; repeat split; lia.
  - intros [= <- <-]. repeat split; lia.
Qed.

Lemma count_labels_ok rid_exp items : ∀ pc tc pc' tc',
  count_labels rid_exp (pc, tc) items = Ok (pc', tc') →
  forallb (fun item => handled rid_exp item.1 item.2) items = true ∧
  pc ≤ pc' ∧ pc' - pc ≤ tc' - tc ∧ tc' - tc ≤ Z.of_nat (length items).
Proof.
  induction items as [|[key entry] items IH]; intros pc tc pc' tc'.
  - intros [= <- <-]. repeat split; simpl; lia.
  - cbn [count_labels].
    destruct (count_label rid_exp (pc, tc) key entry) as [[pc1 tc1]|] eqn:E; [|done].
    cbn [mbind result_bind]. intros H.
    apply count_label_ok in E as (Hh & ? & ? & ?).
    apply IH in H as (Hall & ? & ? & ?).
    cbn [forallb fst snd]. rewrite Hh, Hall. cbn [length]. repeat split; lia.
Qed.

(** The loop raises [KeyError] or [TypeError], and [KeyError] only when
    every entry is a [dict]. *)
Lemma count_labels_raise rid_exp items : ∀ counters e,
  count_labels rid_exp counters items = Raise e →
  (e = KeyError ∨ e = TypeError) ∧
  ((∀ key fields, (key, fields) ∈ items → ∃ o, fields = JObj o) → e = KeyError).
Proof.
  induction items as [|[key entry] items IH]; intros counters e; [done|].
  cbn [count_labels].
  destruct (count_label rid_exp counters key entry) as [counters'|e'] eqn:E.
  - cbn [mbind result_bind]. intros H. destruct (IH _ _ H) as [H1 H2].
    split; [exact H1|]. intros Hobj. apply H2. intros k f Hin. apply (Hobj k). by right.
  - cbn [mbind result_bind]. intros [= <-].
    destruct counters as [pc tc]. unfold count_label, subscript in E.
    split.
    + destruct entry as [| | | | | | | |o]; try (injection E as <-; by right).
      destruct (o !! "is_correct") as [v|]; [|injection E as <-; by left].
      cbn in E. destruct (eq_True v); [|done].
      destruct (rid_exp !! key); cbn in E;
        [destruct (Qle_bool _ _); done|injection E as <-; by left].
    + intros Hobj. destruct (Hobj key entry) as [o ->]; [by left|].
      destruct (o !! "is_correct") as [v|]; [|by injection E as <-].
      cbn in E. destruct (eq_True v); [|done].
      destruct (rid_exp !! key); cbn in E;
        [destruct (Qle_bool _ _); done|by injection E as <-].
Qed.

(** A recall is a fraction between zero and one. *)
Lemma recall_bounds tp tc :
  0 ≤ tp → tp ≤ tc → 0 < tc →
  (0 <= Qred (inject_Z tp / inject_Z tc))%Q ∧ (Qred (inject_Z tp / inject_Z tc) <= 1)%Q.
Proof.
  intros H0 H1 H2. rewrite Qred_correct.
  destruct tc as [|p|p]; try lia.
  unfold Qle, Qdiv, Qmult, Qinv, inject_Z; simpl. split; lia.
Qed.

(** X7: whatever the input, the script ends in one of three ways.  It
    prints nothing and raises (the table or a label could not be read); or
    it prints the number of labels, 0 and 0 and raises [ZeroDivisionError];
    or it prints the number of labels, a true-positive and a false-negative
    count that are not negative and together at least one and at most the
    number of labels, and their recall, a fraction from 0 to 1. *)
Theorem main_reports float (labels : gmap string json) rows :
  (∃ e, main float labels rows = ([], Raise e)) ∨
  main float labels rows =
    ([Labels (size labels); TruePositive 0; FalseNegative 0], Raise ZeroDivisionError) ∨
  ∃ tp fn,
    main float labels rows =
      ([Labels (size labels); TruePositive tp; FalseNegative fn;
        Recall (Qred (inject_Z tp / inject_Z (tp + fn)))], Ok tt) ∧
    0 ≤ tp ∧ 0 ≤ fn ∧ 0 < tp + fn ≤ Z.of_nat (size labels) ∧
    (0 <= Qred (inject_Z tp / inject_Z (tp + fn)))%Q ∧
    (Qred (inject_Z tp / inject_Z (tp + fn)) <= 1)%Q.
Proof.
  unfold main.
  destruct (read_expectations float ∅ (drop 1 rows)) as [rid_exp|e];
    [|left; by exists e].
  rewrite lift_ok_bind.
  destruct (count_labels rid_exp (0, 0) (map_to_list labels)) as [[pc tc]|e] eqn:E;
    [|left; by exists e].
  rewrite lift_ok_bind. right.
  apply count_labels_ok in E as (_ & ? & ? & Hlen). rewrite length_map_to_list in Hlen.
  unfold report, divide. destruct (Z.eqb_spec tc 0) as [->|Hne].
  - left. assert (pc = 0) as -> by lia. reflexivity.
  - right. exists pc, (tc - pc).
    replace (pc + (tc - pc)) with tc by lia.
    split; [reflexivity|]. repeat split; try lia; apply recall_bounds; lia.
Qed.

(** X8: a correct label whose key has no expectation is an error: when
    the table loads and every label entry is a [dict], the script prints
    nothing and raises [KeyError]. *)
Theorem correct_label_without_expectation float (labels : gmap string json)
    rows rid_exp key entry :
  read_expectations float ∅ (drop 1 rows) = Ok rid_exp →
  (∀ k e, labels !! k = Some e → ∃ o, e = JObj o) →
  labels !! key = Some entry →
  correct entry = true →
  rid_exp !! key = None →
  main float labels rows = ([], Raise KeyError).
Proof.
  intros Hread Hobj Hkey Hcorrect Hnone. unfold main. rewrite Hread, lift_ok_bind.
  destruct (count_labels rid_exp (0, 0) (map_to_list labels)) as [[pc tc]|e] eqn:E.
  - exfalso. apply count_labels_ok in E as (Hall & _).
    rewrite forallb_forall in Hall.
    specialize (Hall (key, entry)). cbn [fst snd] in Hall.
    unfold handled in Hall. unfold correct in Hcorrect.
    destruct (subscript entry "is_correct") as [v|]; [|done].
    rewrite Hcorrect, Hnone in Hall.
    discriminate Hall. by apply list_elem_of_In, elem_of_map_to_list.
  - apply count_labels_raise in E as [_ E]. rewrite E; [reflexivity|].
    intros k f Hin. apply (Hobj k). by apply elem_of_map_to_list.
Qed.

Lemma correct_label_without_expectation_witness :
  main example_float unmatched_labels example_rows = ([], Raise KeyError).
Proof.
  apply (correct_label_without_expectation example_float unmatched_labels example_rows
           example_rid_exp "r3" (JObj {[ "is_correct" := JBool true ]})); try reflexivity.
  intros k e. unfold unmatched_labels.
  rewrite lookup_insert. case_decide; [intros [= <-]; by eexists|].
  rewrite lookup_singleton. case_decide; [intros [= <-]; by eexists|done].
Defined.

Lemma filter_length_permutation {A} (f : A → bool) (l l' : list A) :
  l ≡ₚ l' → length (List.filter f l) = length (List.filter f l').
Proof.
  induction 1 as [|x l l' _ IH|x y l|l l' l'' _ IH1 _ IH2]; simpl.
  - reflexivity.
  - destruct (f x); simpl; congruence.
  - destruct (f x), (f y); reflexivity.
  - congruence.
Qed.

Lemma forallb_permutation {A} (f : A → bool) (l l' : list A) :
  l ≡ₚ l' → forallb f l = true → forallb f l' = true.
Proof.
  intros Hp. rewrite !forallb_forall. intros H x Hin. apply H.
  eapply Permutation_in; [symmetry; exact Hp|exact Hin].
Qed.

(** X9: the order in which the labels are met does not matter.  Over two
    orders of the same items the loop ends normally with the same counters,
    or raises in both. *)
Theorem count_labels_any_order rid_exp counters items items' :
  items ≡ₚ items' →
  match count_labels rid_exp counters items, count_labels rid_exp counters items' with
  | Ok c, Ok c' => c = c'
  | Raise _, Raise _ => True
  | _, _ => False
  end.
Proof.
  intros Hp. destruct counters as [pc tc].
  assert (∀ l l', l ≡ₚ l' → ∀ c, count_labels rid_exp (pc, tc) l = Ok c →
                   count_labels rid_exp (pc, tc) l' = Ok c) as Hmove.
  { intros l l' Hl [pc' tc'] H.
    pose proof (count_labels_ok _ _ _ _ _ _ H) as (Hall & _).
    rewrite (count_labels_handled _ _ _ _ Hall) in H.
    rewrite (count_labels_handled _ _ _ _ (forallb_permutation _ _ _ Hl Hall)).
    rewrite <- H. unfold true_positives, false_negatives.
    by rewrite !(filter_length_permutation _ _ _ Hl). }
  destruct (count_labels rid_exp (pc, tc) items) as [c|e] eqn:E.
  - by rewrite (Hmove _ _ Hp _ E).
  - destruct (count_labels rid_exp (pc, tc) items') as [c'|e'] eqn:E'; [|done].
    symmetry in Hp. rewrite (Hmove _ _ Hp _ E') in E. discriminate.
Qed.

Lemma count_labels_any_order_witness :
  match count_labels example_rid_exp (0, 0) (map_to_list example_labels),
        count_labels example_rid_exp (0, 0) (reverse (map_to_list example_labels)) with
  | Ok c, Ok c' => c = c'
  | Raise _, Raise _ => True
  | _, _ => False
  end.
Proof.
  apply (count_labels_any_order example_rid_exp (0, 0) (map_to_list example_labels)
           (reverse (map_to_list example_labels))).
  symmetry. apply reverse_Permutation.
Defined.

(** X10: an expectation without a label is passed over in silence.  A
    further row of [input.csv] whose relation id has no label, or a label
    that is not correct, changes nothing of what the script prints or of
    how it ends. *)
Theorem unlabelled_row_ignored float (labels : gmap string json)
    header rows s key field expectation :
  s !! 0%nat = Some key → s !! 4%nat = Some field → float field = Ok expectation →
  (∀ entry, labels !! key = Some entry → correct entry = false) →
  main float labels (header :: rows ++ [s]) = main float labels (header :: rows).
Proof.
  intros H0 H4 Hf Hkey. unfold main. cbn [drop]. rewrite !drop_0.
  rewrite read_expectations_app.
  destruct (read_expectations float ∅ rows) as [rid_exp|e]; [|reflexivity].
  cbn [mbind result_bind read_expectations]. unfold index. rewrite H0, H4. cbn.
  rewrite Hf. cbn.
  rewrite (count_labels_agree (<[key:=expectation]> rid_exp) rid_exp); [reflexivity|].
  intros k entry Hin Hc. apply lookup_insert_ne. intros ->.
  apply elem_of_map_to_list in Hin. rewrite (Hkey _ Hin) in Hc. discriminate.
Qed.

Lemma unlabelled_row_ignored_witness :
  main example_float example_labels
    (["relation_id"] :: drop 1 example_rows ++ [unlabelled_row]) =
  main example_float example_labels (["relation_id"] :: drop 1 example_rows).
Proof.
  apply (unlabelled_row_ignored example_float example_labels ["relation_id"]
           (drop 1 example_rows) unlabelled_row "r7" "0.80" float_0_80);
    try reflexivity.
  intros entry. unfold example_labels.
  rewrite lookup_insert. case_decide; [done|].
  rewrite lookup_singleton. by case_decide.
Defined.

End ComputeRecallExtra.

(** ** The labels that are not correct *)

Module ComputeRecallLabels.
Import PyFacts ComputeRecall ComputeRecallFacts ComputeRecallExtra.

Lemma not_correct_false entry : not_correct entry → correct entry = false.
Proof. intros (v & Hv & Hfalse). unfold correct. by rewrite Hv. Qed.

Lemma not_correct_handled rid_exp key entry :
  not_correct entry → handled rid_exp key entry = true.
Proof. intros (v & Hv & Hfalse). unfold handled. by rewrite Hv, Hfalse. Qed.

Lemma joined_delete rid_exp (labels : gmap string json) key entry :
  labels !! key = Some entry → not_correct entry →
  joined rid_exp (delete key labels) → joined rid_exp labels.
Proof.
  intros Hkey Hentry Hjoined k e Hk. destruct (decide (k = key)) as [->|Hne].
  - rewrite Hkey in Hk. injection Hk as <-. by apply not_correct_handled.
  - apply (Hjoined k e). by rewrite lookup_delete_ne.
Qed.

(** Without a label that is not correct, the counts of the specification
    are the same and there is one label less. *)
Lemma counts_delete rid_exp (labels : gmap string json) key entry :
  labels !! key = Some entry → not_correct entry →
  true_positives rid_exp (map_to_list labels) =
    true_positives rid_exp (map_to_list (delete key labels)) ∧
  false_negatives rid_exp (map_to_list labels) =
    false_negatives rid_exp (map_to_list (delete key labels)) ∧
  size labels = S (size (delete key labels)).
Proof.
  intros Hkey Hentry. pose proof (map_to_list_delete labels key entry Hkey) as Hp.
  pose proof (not_correct_false _ Hentry) as Hc.
  unfold true_positives, false_negatives.
  rewrite <- !(filter_length_permutation _ _ _ Hp).
  rewrite <- !length_map_to_list, <- (Permutation_length Hp).
  cbn [List.filter fst snd length]. by rewrite Hc.
Qed.

(** C10: the expectation table is consulted for the correct labels only.
    Take a label whose [is_correct] is not equal to [True] (in the sense of
    Python's [==]).  (a) Its expectation is never looked up: over any other
    table that differs at its key only, an expectation that is missing
    there included, the script prints the same and ends the same, and the
    turn of the loop for this label leaves both counters as they are,
    whatever the table.  (b) When the other labels can be handled, the
    script prints the number of labels, in which it counts for one, then
    the true positives and the false negatives of the other labels alone,
    and goes on to the recall of these; apart from the first line, this is
    what the script prints on the labels without it. *)
Theorem incorrect_label_only_counted float (labels : gmap string json)
    rows rid_exp key entry :
  read_expectations float ∅ (drop 1 rows) = Ok rid_exp →
  labels !! key = Some entry →
  not_correct entry →
  (∀ rows' rid_exp',
     read_expectations float ∅ (drop 1 rows') = Ok rid_exp' →
     (∀ k, k ≠ key → rid_exp' !! k = rid_exp !! k) →
     main float labels rows' = main float labels rows) ∧
  (∀ rid_exp' counters, count_label rid_exp' counters key entry = Ok counters) ∧
  (joined rid_exp (delete key labels) →
   let others := delete key labels in
   let tp := Z.of_nat (true_positives rid_exp (map_to_list others)) in
   let fn := Z.of_nat (false_negatives rid_exp (map_to_list others)) in
   let recall : list line * result unit :=
     if tp + fn =? 0 then ([], Raise ZeroDivisionError)
     else ([Recall (Qred (inject_Z tp / inject_Z (tp + fn)))], Ok tt) in
   main float labels rows =
     (Labels (S (size others)) :: TruePositive tp :: FalseNegative fn :: recall.1,
      recall.2) ∧
   main float others rows =
     (Labels (size others) :: TruePositive tp :: FalseNegative fn :: recall.1,
      recall.2)).
Proof.
  intros Hread Hkey Hentry. split; [|split].
  - intros rows' rid_exp' Hread' Hsame.
    unfold main. rewrite Hread, Hread', !lift_ok_bind.
    rewrite (count_labels_agree rid_exp' rid_exp); [reflexivity|].
    intros k e Hin Hc. apply Hsame. intros ->.
    apply elem_of_map_to_list in Hin. rewrite Hkey in Hin. injection Hin as <-.
    rewrite (not_correct_false _ Hentry) in Hc. discriminate.
  - intros rid_exp' counters. by apply count_label_not_correct.
  - intros Hjoined. cbv zeta.
    rewrite (main_joined _ _ _ _ Hread (joined_delete _ _ _ _ Hkey Hentry Hjoined)).
    rewrite (main_joined _ _ _ _ Hread Hjoined).
    unfold report, divide.
    destruct (counts_delete rid_exp labels key entry Hkey Hentry) as (-> & -> & ->).
    set (tp := Z.of_nat (true_positives rid_exp (map_to_list (delete key labels)))).
    set (fn := Z.of_nat (false_negatives rid_exp (map_to_list (delete key labels)))).
    replace (tp + fn - tp) with fn by lia.
    destruct (tp + fn =? 0); split; reflexivity.
Qed.

Lemma incorrect_label_only_counted_witness :
  example_rid_exp !! "r3" = None ∧
  main example_float mixed_labels (example_rows ++ [late_row]) =
    main example_float mixed_labels example_rows ∧
  main example_float mixed_labels example_rows =
    ([Labels 2; TruePositive 1; FalseNegative 0; Recall 1], Ok tt) ∧
  main example_float (delete "r3" mixed_labels) example_rows =
    ([Labels 1; TruePositive 1; FalseNegative 0; Recall 1], Ok tt).
Proof.
  destruct (incorrect_label_only_counted example_float mixed_labels example_rows
              example_rid_exp "r3" (JObj {[ "is_correct" := JNull ]}))
    as (Hsame & _ & Hlines).
  - reflexivity.
  - reflexivity.
  - exists JNull. split; reflexivity.
  - split; [reflexivity|]. split; [|apply Hlines].
    + apply (Hsame (example_rows ++ [late_row]) (<["r3" := float_0_95]> example_rid_exp)).
      * reflexivity.
      * intros k Hne. by apply lookup_insert_ne.
    + unfold joined. refine (bool_decide_unpack _ _). vm_compute. exact I.
Defined.

End ComputeRecallLabels.

(** ** More on the feature extractor *)

Module HasSpouseFeaturesExtra.
Import PyFacts PyExtra HasSpouseFeatures HasSpouseFeaturesFacts.

(** The three ways [parse_fields] ends, by the parts of the row. *)
Lemma parse_fields_cases row :
  ((length (split TAB (strip row)) < 6)%nat ∧ parse_fields row = Raise IndexError) ∨
  ((6 ≤ length (split TAB (strip row)))%nat ∧ malformed row ∧
   parse_fields row = Raise ValueError) ∨
  (∃ a b c d e r o1 o2 o3 o4 n1 n2 n3 n4,
     split TAB (strip row) = [a; b; c; d; e; r; o1; o2; o3; o4] ∧
     int_of_str o1 = Ok n1 ∧ int_of_str o2 = Ok n2 ∧
     int_of_str o3 = Ok n3 ∧ int_of_str o4 = Ok n4 ∧
     parse_fields row =
     Ok {| words := split ARR_DELIM a; lemmas := split ARR_DELIM b;
           poses := split ARR_DELIM c; dependencies := split ARR_DELIM d;
           ners := split ARR_DELIM e; relation_id := r;
           p1_start := n1; p1_length := n2; p2_start := n3; p2_length := n4 |}).
Proof.
  unfold malformed, parse_fields. generalize (split TAB (strip row)) as parts.
  intros parts.
  destruct parts as [|a [|b [|c [|d [|e [|r rest]]]]]];
    try (left; split; [simpl; lia|reflexivity]).
  right. cbn. rewrite !drop_0.
  pose proof (mapM_result int_of_str rest) as HM.
  destruct (mapM int_of_str rest) as [offsets|err]; cbn.
  - destruct (decide (length rest = 4%nat)) as [Hlen|Hlen].
    + right.
      destruct rest as [|o1 [|o2 [|o3 [|o4 [|]]]]]; try discriminate.
      apply Forall2_cons_inv_l in HM as (n1 & k1 & H1 & HM & ->).
      apply Forall2_cons_inv_l in HM as (n2 & k2 & H2 & HM & ->).
      apply Forall2_cons_inv_l in HM as (n3 & k3 & H3 & HM & ->).
      apply Forall2_cons_inv_l in HM as (n4 & k4 & H4 & HM & ->).
      apply Forall2_nil_inv_l in HM as ->.
      by exists a, b, c, d, e, r, o1, o2, o3, o4, n1, n2, n3, n4.
    + left. split; [lia|]. split; [left; lia|].
      apply Forall2_length in HM.
      destruct offsets as [|? [|? [|? [|? [|? ?]]]]]; try reflexivity.
      simpl in HM. lia.
  - left. destruct HM as (x & Hin & Hx).
    pose proof (int_of_str_raise _ _ Hx) as ->.
    split; [lia|]. split; [right; by exists x|reflexivity].
Qed.

Lemma parse_fields_ok_well_formed row f : parse_fields row = Ok f → ¬ malformed row.
Proof.
  intros Hf Hmal. destruct (parse_fields_malformed row Hmal); congruence.
Qed.

(** X11: a row is parsed exactly when it is not malformed, and then its
    ten parts are, in this order, the five annotation sequences (cut at the
    array delimiter), the relation id, unchanged, and the four offsets. *)
Theorem parse_fields_ok_iff row :
  ((∃ f, parse_fields row = Ok f) ↔ ¬ malformed row) ∧
  ∀ f, parse_fields row = Ok f →
    ∃ a b c d e o1 o2 o3 o4,
      split TAB (strip row) = [a; b; c; d; e; relation_id f; o1; o2; o3; o4] ∧
      words f = split ARR_DELIM a ∧ lemmas f = split ARR_DELIM b ∧
      poses f = split ARR_DELIM c ∧ dependencies f = split ARR_DELIM d ∧
      ners f = split ARR_DELIM e ∧
      int_of_str o1 = Ok (p1_start f) ∧ int_of_str o2 = Ok (p1_length f) ∧
      int_of_str o3 = Ok (p2_start f) ∧ int_of_str o4 = Ok (p2_length f).
Proof.
  destruct (parse_fields_cases row)
    as [[Hlen E]|[(Hlen & Hmal & E)|
        (a & b & c & d & e & r & o1 & o2 & o3 & o4 & n1 & n2 & n3 & n4 &
         Hparts & H1 & H2 & H3 & H4 & E)]].
  - split; [|by rewrite E]. split; [intros [f Hf]; congruence|].
    intros H. exfalso. apply H. left. lia.
  - split; [|by rewrite E]. split; [intros [f Hf]; congruence|done].
  - split.
    + split; [|by eexists]. intros _ [Hlen|(x & Hin & Hx)].
      * rewrite Hparts in Hlen. by apply Hlen.
      * rewrite Hparts in Hin. cbn in Hin. rewrite ?drop_0 in Hin.
        repeat (apply elem_of_cons in Hin as [->|Hin]; [congruence|]).
        by apply not_elem_of_nil in Hin.
    + intros f Hf. rewrite E in Hf. injection Hf as <-.
      by exists a, b, c, d, e, o1, o2, o3, o4.
Qed.

(** X12: which exception a row raises.  [IndexError] exactly when the row
    has fewer than six tab-separated parts; [ValueError] exactly when it
    has six or more and is malformed; never another one. *)
Theorem parse_fields_error_kind row :
  (parse_fields row = Raise IndexError ↔ (length (split TAB (strip row)) < 6)%nat) ∧
  (parse_fields row = Raise ValueError ↔
   (6 ≤ length (split TAB (strip row)))%nat ∧ malformed row) ∧
  (∀ e, parse_fields row = Raise e → e = IndexError ∨ e = ValueError).
Proof.
  destruct (parse_fields_cases row)
    as [[Hlen E]|[(Hlen & Hmal & E)|
        (a & b & c & d & e & r & o1 & o2 & o3 & o4 & n1 & n2 & n3 & n4 &
         Hparts & H1 & H2 & H3 & H4 & E)]]; rewrite E.
  - split; [done|]. split; [|intros e' [= <-]; by left].
    split; [done|]. intros [? _]. lia.
  - split; [split; [done|lia]|]. split; [done|]. intros e' [= <-]. by right.
  - rewrite Hparts. split; [split; [done|simpl; lia]|].
    split; [|done]. split; [done|]. intros [_ Hmal]. exfalso.
    by apply (parse_fields_ok_well_formed row _ E).
Qed.

(** X13: an empty line, or a line of whitespace only, is no record that is
    skipped: it raises [IndexError]. *)
Theorem blank_row_index_error row :
  blank row = true → parse_fields row = Raise IndexError.
Proof.
  intros H. unfold parse_fields. by rewrite (strip_blank _ H).
Qed.

Lemma blank_row_index_error_witness :
  parse_fields Fixture.blank_row = Raise IndexError.
Proof. apply (blank_row_index_error Fixture.blank_row). reflexivity. Defined.

(** In a loop whose turns print nothing when they raise, what is printed is
    what the first [k] turns print, for some [k]; all of them when the loop
    ends normally. *)
Lemma for_each_whole_turns {O X} (body : X → io O unit) (l : list X) :
  (∀ x e, (body x).2 = Raise e → (body x).1 = []) →
  ∃ k, (k ≤ length l)%nat ∧
       (for_each l body).1 = List.concat ((fun x => (body x).1) <$> take k l) ∧
       ((for_each l body).2 = Ok tt → k = length l).
Proof.
  intros Hbody. induction l as [|x l (k & Hk & Hout & Hend)].
  - exists 0%nat. by repeat split.
  - cbn [for_each]. unfold mbind, io_bind.
    destruct (body x) as [o [[]|e]] eqn:E; cbn [fst snd].
    + exists (S k). cbn [take fmap list_fmap List.concat length]. rewrite E, Hout.
      split; [lia|]. split; [reflexivity|]. intros H. by rewrite (Hend H).
    + exists 0%nat.
      assert (o = []) as ->.
      { specialize (Hbody x e). rewrite E in Hbody. by apply Hbody. }
      split; [simpl; lia|]. by split.
Qed.

Section Script.

Context {Store Sentence SpanT : Type}.
Variable get_sentence :
  list Z -> list Z -> list string -> list string -> list string ->
  list string -> list string -> result Sentence.
Variable Span : Z -> Z -> result SpanT.
Variable get_generic_features_relation :
  Store -> Sentence -> SpanT -> SpanT -> result (list string).

Abbreviation process_row := (process_row get_sentence Span get_generic_features_relation).
Abbreviation process_rows := (process_rows get_sentence Span get_generic_features_relation).
Abbreviation features_of := (features_of get_sentence Span get_generic_features_relation).

Lemma process_row_raise (dicts : Store) row e :
  (process_row dicts row).2 = Raise e → (process_row dicts row).1 = [].
Proof.
  destruct (process_row_cases get_sentence Span get_generic_features_relation dicts row)
    as [[e' ->]|(f & features & _ & ->)]; [done|discriminate].
Qed.

(** X14: one output line per generated feature, each with the relation id
    of its row.  When a row is parsed and the library calls succeed, the
    lines printed are exactly the strings [relation_id + '\t' + feature]
    for the features generated; there are no more lines than features
    generated, and as many when no feature is generated twice. *)
Theorem row_lines (dicts : Store) row f sentence span1 span2 features :
  parse_fields row = Ok f →
  build_sentence get_sentence f = Ok sentence →
  resolve_spans Span f = Ok (span1, span2) →
  get_generic_features_relation dicts sentence span1 span2 = Ok features →
  ∃ out, process_row dicts row = (out, Ok tt) ∧
         (∀ line, line ∈ out ↔
                  ∃ feature, feature ∈ features ∧
                             line = relation_id f +:+ TAB +:+ feature) ∧
         (length out ≤ length features)%nat ∧
         (NoDup features → length out = length features).
Proof.
  intros Hf Hs Hsp Hg. unfold HasSpouseFeatures.process_row.
  rewrite Hf, lift_ok_bind, Hs, lift_ok_bind, Hsp, lift_ok_bind.
  unfold generate. cbn [fst snd]. rewrite Hg. cbn [fmap result_fmap].
  rewrite lift_ok_bind. unfold emit. rewrite for_each_print.
  eexists. split; [reflexivity|]. rewrite length_fmap. split; [|split].
  - intros line. rewrite list_elem_of_fmap. split.
    + intros (feature & -> & Hin). exists feature.
      by rewrite elem_of_elements, elem_of_list_to_set in Hin.
    + intros (feature & Hin & ->). exists feature.
      by rewrite elem_of_elements, elem_of_list_to_set.
  - apply elements_list_to_set_length.
  - intros Hnd. apply Permutation_length. by apply elements_list_to_set.
Qed.

(** X15: an exception of the library ends the run as a malformed row does.
    When sentence construction, a span or the generator raises for a row,
    nothing is printed for that row and the run ends with that exception;
    the rows after it are not read. *)
Theorem library_exception_stops_run (dicts : Store) pre row post f e :
  (process_rows dicts pre).2 = Ok tt →
  parse_fields row = Ok f →
  features_of dicts f = Raise e →
  process_row dicts row = ([], Raise e) ∧
  process_rows dicts (pre ++ row :: post) = ((process_rows dicts pre).1, Raise e).
Proof.
  intros Hpre Hf He.
  assert (process_row dicts row = ([], Raise e)) as Hrow.
  { rewrite process_row_features, Hf, lift_ok_bind. by rewrite He. }
  split; [exact Hrow|].
  rewrite (process_rows_after _ _ _ _ _ _ Hpre).
  unfold HasSpouseFeatures.process_rows at 2 3. cbn [for_each].
  rewrite Hrow. cbn. by rewrite app_nil_r.
Qed.

(** X16: only whole records are printed.  Whatever the rows, the output is
    the lines of the first [k] rows, in their order, for some [k]; and [k]
    is the number of rows when the run ends normally. *)
Theorem output_is_whole_rows (dicts : Store) rows :
  ∃ k, (k ≤ length rows)%nat ∧
       (process_rows dicts rows).1 =
       List.concat ((fun row => (process_row dicts row).1) <$> take k rows) ∧
       ((process_rows dicts rows).2 = Ok tt → k = length rows).
Proof. apply for_each_whole_turns. intros row e. apply process_row_raise. Qed.

End Script.

Lemma row_lines_witness :
  ∃ out, HasSpouseFeatures.process_row Fixture.get_sentence Fixture.Span
           Fixture.get_generic_features_relation (∅ : Fixture.Store) Fixture.good_row
         = (out, Ok tt) ∧
         (∀ line, line ∈ out ↔
                  ∃ feature, feature ∈ Fixture.good_features ∧
                             line = relation_id Fixture.good_fields +:+ TAB +:+ feature) ∧
         (length out ≤ length Fixture.good_features)%nat ∧
         (NoDup Fixture.good_features → length out = length Fixture.good_features).
Proof.
  eapply (row_lines Fixture.get_sentence Fixture.Span Fixture.get_generic_features_relation
            (∅ : Fixture.Store) Fixture.good_row Fixture.good_fields);
    reflexivity.
Defined.

Lemma library_exception_stops_run_witness :
  HasSpouseFeatures.process_row Fixture.get_sentence Fixture.Span
    Fixture.get_generic_features_relation (∅ : Fixture.Store) Fixture.misaligned_row
  = ([], Raise Ddlib.MalformedInputError) ∧
  Fixture.process_rows ([Fixture.good_row] ++ Fixture.misaligned_row :: [Fixture.good_row])
  = ((Fixture.process_rows [Fixture.good_row]).1, Raise Ddlib.MalformedInputError).
Proof.
  apply (library_exception_stops_run Fixture.get_sentence Fixture.Span
           Fixture.get_generic_features_relation (∅ : Fixture.Store)
           [Fixture.good_row] Fixture.misaligned_row [Fixture.good_row]
           Fixture.misaligned_fields Ddlib.MalformedInputError);
    reflexivity.
Defined.

End HasSpouseFeaturesExtra.

(** ** Cutting a string at a separator of any length *)

Module PySplit.
Import PyFacts.

(** Passing over [k] characters is cutting the rest. *)
Lemma split_from_skip sep s : ∀ k, split_from sep k s = split sep (drop_str k s).
Proof.
  induction s as [|c r IH]; intros [|k]; try reflexivity.
  cbn [split_from drop_str]. apply IH.
Qed.

Lemma prefix_drop sep : ∀ s,
  String.prefix sep s = true → s = sep +:+ drop_str (String.length sep) s.
Proof.
  induction sep as [|a sep IH]; intros s; [reflexivity|].
  destruct s as [|b s]; [discriminate|]. cbn [String.prefix].
  destruct (ascii_dec a b) as [->|]; [|discriminate].
  intros H. cbn [String.length drop_str].
  change (String b sep +:+ drop_str (String.length sep) s)
    with (String b (sep +:+ drop_str (String.length sep) s)).
  by rewrite <- (IH s H).
Qed.

Lemma drop_str_length k : ∀ s, (String.length (drop_str k s) ≤ String.length s)%nat.
Proof.
  induction k as [|k IH]; intros [|c r]; simpl; try lia.
  specialize (IH r). lia.
Qed.

Lemma split_concat_bounded sep n : sep ≠ "" → ∀ s,
  (String.length s ≤ n)%nat → String.concat sep (split sep s) = s.
Proof.
  intros Hsep.
  induction n as [|n IH]; intros [|c r] Hlen; try reflexivity; [simpl in Hlen; lia|].
  unfold split. cbn [split_from].
  destruct (String.prefix sep (String c r)) eqn:Hp.
  - rewrite split_from_skip.
    pose proof (prefix_drop _ _ Hp) as Hs.
    destruct sep as [|a sep]; [done|].
    cbn [String.length drop_str] in Hs.
    replace (String.length (String a sep) - 1)%nat with (String.length sep)
      by (cbn [String.length]; lia).
    set (rest := drop_str (String.length sep) r) in *.
    assert (String.concat (String a sep) (split (String a sep) rest) = rest) as Hrest.
    { apply IH. pose proof (drop_str_length (String.length sep) r).
      simpl in Hlen. unfold rest. lia. }
    destruct (split (String a sep) rest) as [|q qs] eqn:E;
      [by apply split_from_nonempty in E|].
    rewrite Hs.
    change (String.concat (String a sep) ("" :: q :: qs))
      with (String a sep +:+ String.concat (String a sep) (q :: qs)).
    by rewrite Hrest.
  - fold (split sep r).
    assert (String.concat sep (split sep r) = r) as Hr.
    { apply IH. simpl in Hlen. lia. }
    destruct (split sep r) as [|q qs] eqn:E; [by apply split_from_nonempty in E|].
    rewrite <- Hr. destruct qs; reflexivity.
Qed.

(** X17: cutting at a separator, of one character or of several as
    ['~^~'], loses nothing: the pieces joined by the separator are the
    string again, and there is always at least one piece. *)
Theorem split_round_trip sep s :
  sep ≠ "" →
  String.concat sep (split sep s) = s ∧ split sep s ≠ [].
Proof.
  intros Hsep. split; [by apply (split_concat_bounded sep (String.length s))|].
  apply split_from_nonempty.
Qed.

Lemma split_round_trip_witness :
  String.concat HasSpouseFeatures.ARR_DELIM
    (split HasSpouseFeatures.ARR_DELIM "John~^~married~^~~^~Mary~^~^~") =
  "John~^~married~^~~^~Mary~^~^~" ∧
  split HasSpouseFeatures.ARR_DELIM "John~^~married~^~~^~Mary~^~^~" ≠ [].
Proof.
  apply (split_round_trip HasSpouseFeatures.ARR_DELIM "John~^~married~^~~^~Mary~^~^~").
  discriminate.
Defined.

End PySplit.

(** ** Span resolution *)

Module SpanResolverFacts.
Import SpanResolver.







End SpanResolverFacts.
